(** * translate_po: a shallow embedding of [translate_po.py]

    The script loads a gettext catalog with polib, selects the entries that
    have no translation yet, drops those that come from report files or are
    flagged fuzzy, sends the remaining ones to the translation service one by
    one, writes each answer into the entry, and saves the catalog when at
    least one entry was translated.

    The catalog lives in a store (the list held by the [POFile] object);
    the two work lists of the script hold references into it, which are
    positions of that list, so that writing through a reference changes the
    entry of the catalog.  The library calls (polib, googletrans) are an
    [environment]: each call returns or raises.  Everything the script does to
    the outside (printing, sleeping, calling the service, saving) is recorded
    in a trace, in the order in which it happens.  Time itself is not
    modelled: a sleep is an event of the trace that carries its duration. *)

From Stdlib Require Import String Ascii List Arith Lia QArith DecimalString.
From stdpp Require Import base list strings.

Local Open Scope list_scope.

(** ** Python strings and lists *)

Module Py.

(** Strings are sequences of 8-bit characters.  [str.lower] acts on the
    ASCII capitals, which is all the search for an ASCII word depends on;
    the other characters are left as they are. *)
Definition lower_char (c : ascii) : ascii :=
  let n := nat_of_ascii c in
  if (65 <=? n)%nat && (n <=? 90)%nat then ascii_of_nat (n + 32) else c.

Fixpoint lower (s : string) : string :=
  match s with
  | EmptyString => EmptyString
  | String c r => String (lower_char c) (lower r)
  end.

(** [sub in s] *)
Fixpoint contains (sub s : string) : bool :=
  match s with
  | EmptyString => String.prefix sub EmptyString
  | String _ r => String.prefix sub s || contains sub r
  end.

(** truth value of a string: the empty string is false *)
Definition truthy (s : string) : bool :=
  match s with
  | EmptyString => false
  | String _ _ => true
  end.

(** [s[:n]] *)
Definition slice_to (n : nat) (s : string) : string := String.substring 0 n s.

(** [str(n)] for a non-negative integer *)
Definition str_of_nat (n : nat) : string := NilEmpty.string_of_uint (Nat.to_uint n).

(** [x in l] for a list of strings *)
Definition mem (x : string) (l : list string) : bool := bool_decide (x ∈ l).

(** [l.remove(x)]: drops the first occurrence; [None] is the ValueError
    raised when there is none. *)
Fixpoint remove (x : string) (l : list string) : option (list string) :=
  match l with
  | [] => None
  | y :: r => if String.eqb y x then Some r else cons y <$> remove x r
  end.

End Py.

(** ** Data *)

(** The fields of [polib.POEntry] the script reads or writes. *)
Record POEntry := mkPOEntry {
  msgid : string;
  msgstr : string;
  flags : list string;
  occurrences : list (string * string);   (* (filename, line number) *)
  linenum : nat
}.

#[global] Instance POEntry_inhabited : Inhabited POEntry :=
  populate (mkPOEntry "" "" [] [] 0).

Definition set_msgstr (e : POEntry) (t : string) : POEntry :=
  mkPOEntry (msgid e) t (flags e) (occurrences e) (linenum e).

Definition set_flags (e : POEntry) (fl : list string) : POEntry :=
  mkPOEntry (msgid e) (msgstr e) fl (occurrences e) (linenum e).

(** The answer of [Translator.translate]; only [text] is read. *)
Record Translated := mkTranslated { text : string }.

(** Exceptions: instances of Python's [Exception], which is what the library
    calls raise.  [FileNotFoundError] is told apart because the script has a
    handler for it.  An interrupt from the keyboard or an exit of the
    interpreter is no instance of [Exception], is caught by no handler of the
    script, and is not part of the model. *)
Inductive exc_class := FileNotFoundError | OtherException.

Record exn := mkExn { exc_type : exc_class; exc_str : string }.

Inductive outcome (A : Type) :=
| Return (a : A)
| Raise (e : exn).
Arguments Return {A} a.
Arguments Raise {A} e.

(** What the script does to the outside, as it happens. *)
Inductive event :=
| Print (line : string)
| Sleep (seconds : Q)
| CallTranslate (txt dest : string)
| CallSave (fpath : string) (entries : list POEntry).

(** The libraries.  [Translator_translate k t d] is the answer to the call
    number [k] (from 0) of the run, so the service may answer the same text
    differently from one call to the next. *)
Record environment := mkEnvironment {
  polib_pofile : string -> outcome (list POEntry);
  googletrans_Translator : outcome unit;
  Translator_translate : nat -> string -> string -> outcome (option Translated);
  POFile_save : string -> list POEntry -> outcome unit
}.

(** ** The state and exception monad *)

Record state := mkState {
  po : list POEntry;          (* the entries of the loaded catalog *)
  translated_count : nat;
  skipped_count : nat;
  calls : nat;                (* translation calls made so far *)
  trace : list event
}.

Definition initial : state := mkState [] 0 0 0 [].

Definition M (A : Type) : Type := state -> outcome A * state.

Definition ret {A} (a : A) : M A := fun s => (Return a, s).

Definition bind {A B} (m : M A) (k : A -> M B) : M B :=
  fun s =>
    match m s with
    | (Return a, s') => k a s'
    | (Raise e, s') => (Raise e, s')
    end.

Declare Scope py_scope.
Delimit Scope py_scope with py.
Notation "x <- m ';;' k" := (bind m (fun x => k))
  (at level 100, m at next level, right associativity) : py_scope.
Notation "m ';;;' k" := (bind m (fun _ => k))
  (at level 100, right associativity) : py_scope.
Local Open Scope py_scope.

(** [try: body except Exception as e: handler e]; the changes the body made
    before it raised stay. *)
Definition try_except {A} (body : M A) (handler : exn -> M A) : M A :=
  fun s =>
    match body s with
    | (Return a, s') => (Return a, s')
    | (Raise e, s') => handler e s'
    end.

Definition emit (ev : event) : M unit :=
  fun s => (Return tt,
            mkState (po s) (translated_count s) (skipped_count s) (calls s)
                    (trace s ++ [ev])).

Definition print (line : string) : M unit := emit (Print line).

Definition time_sleep (seconds : Q) : M unit := emit (Sleep seconds).

Definition get_entry (r : nat) : M POEntry := fun s => (Return (po s !!! r), s).

Definition update_entry (r : nat) (f : POEntry -> POEntry) : M unit :=
  fun s => (Return tt,
            mkState (<[r := f (po s !!! r)]> (po s)) (translated_count s)
                    (skipped_count s) (calls s) (trace s)).

Definition get_po : M (list POEntry) := fun s => (Return (po s), s).

Definition get_translated_count : M nat := fun s => (Return (translated_count s), s).

Definition get_skipped_count : M nat := fun s => (Return (skipped_count s), s).

Definition incr_translated_count : M unit :=
  fun s => (Return tt,
            mkState (po s) (translated_count s + 1) (skipped_count s) (calls s)
                    (trace s)).

Definition incr_skipped_count : M unit :=
  fun s => (Return tt,
            mkState (po s) (translated_count s) (skipped_count s + 1) (calls s)
                    (trace s)).

Section Script.

Variable env : environment.

(** [polib.pofile(filepath)] *)
Definition pofile (filepath : string) : M unit :=
  fun s =>
    match polib_pofile env filepath with
    | Return es =>
        (Return tt,
         mkState es (translated_count s) (skipped_count s) (calls s) (trace s))
    | Raise e => (Raise e, s)
    end.

(** [Translator()] *)
Definition Translator : M unit := fun s => (googletrans_Translator env, s).

(** [translator.translate(txt, dest=dest)] *)
Definition translate (txt dest : string) : M (option Translated) :=
  fun s =>
    (Translator_translate env (calls s) txt dest,
     mkState (po s) (translated_count s) (skipped_count s) (S (calls s))
             (trace s ++ [CallTranslate txt dest])).

(** [po.save()] *)
Definition save (filepath : string) : M unit :=
  fun s =>
    (POFile_save env filepath (po s),
     mkState (po s) (translated_count s) (skipped_count s) (calls s)
             (trace s ++ [CallSave filepath (po s)])).

Definition target_language : string := "ar".

Definition delay : Q := 1 # 2.

(** The comprehension of line 29: the entries with an empty [msgstr] and a
    non-empty [msgid], as references, in the order of the catalog. *)
Definition untranslated (e : POEntry) : bool :=
  negb (Py.truthy (msgstr e)) && Py.truthy (msgid e).

Definition potentially_translatable (entries : list POEntry) : list nat :=
  List.filter (fun r => untranslated (entries !!! r)) (seq 0 (length entries)).

(** Lines 36-41: the first occurrence whose file name, in lower case,
    contains the word; the loop stops there.  An empty list of occurrences
    skips the loop and finds nothing. *)
Fixpoint report_occurrence (occs : list (string * string)) : option string :=
  match occs with
  | [] => None
  | (filename, line_num_str) :: rest =>
      if Py.contains "report" (Py.lower filename) then Some filename
      else report_occurrence rest
  end.

(** Lines 32-54: the first loop. *)
Fixpoint select_entries (refs : list nat) (entries_to_translate : list nat)
  : M (list nat) :=
  match refs with
  | [] => ret entries_to_translate
  | r :: rest =>
      entry <- get_entry r ;;
      match report_occurrence (occurrences entry) with
      | Some filename =>
          print ("Skipping entry (line " +:+ Py.str_of_nat (linenum entry)
                 +:+ ") due to 'report' in occurrences: " +:+ filename) ;;;
          incr_skipped_count ;;;
          select_entries rest entries_to_translate
      | None =>
          if Py.mem "fuzzy" (flags entry) then
            print ("Skipping fuzzy entry (line " +:+ Py.str_of_nat (linenum entry)
                   +:+ "): " +:+ Py.slice_to 50 (msgid entry) +:+ "...") ;;;
            incr_skipped_count ;;;
            select_entries rest entries_to_translate
          else
            select_entries rest (entries_to_translate ++ [r])
      end
  end.

(** [entry.flags.remove('fuzzy')] *)
Definition flags_remove (r : nat) (x : string) : M unit :=
  entry <- get_entry r ;;
  match Py.remove x (flags entry) with
  | Some fl => update_entry r (fun e => set_flags e fl)
  | None => fun s => (Raise (mkExn OtherException "list.remove(x): x not in list"), s)
  end.

(** Lines 59-77: the body of the second loop, for the entry [r] at
    position [i] of the [n] entries to translate. *)
Definition translate_entry (i n r : nat) : M unit :=
  entry <- get_entry r ;;
  let original_text := msgid entry in
  print ("Translating (" +:+ Py.str_of_nat (i + 1) +:+ "/" +:+ Py.str_of_nat n
         +:+ "): " +:+ Py.slice_to 50 original_text +:+ "...") ;;;
  try_except
    (time_sleep delay ;;;
     translation <- translate original_text target_language ;;
     match translation with
     | Some t =>
         if Py.truthy (text t) then
           update_entry r (fun e => set_msgstr e (text t)) ;;;
           entry1 <- get_entry r ;;
           (if Py.mem "fuzzy" (flags entry1) then flags_remove r "fuzzy"
            else ret tt) ;;;
           incr_translated_count ;;;
           entry2 <- get_entry r ;;
           print ("  -> Translated to: " +:+ Py.slice_to 50 (msgstr entry2) +:+ "...")
         else
           print ("  -> Translation failed or returned empty for: "
                  +:+ Py.slice_to 50 original_text +:+ "...")
     | None =>
         print ("  -> Translation failed or returned empty for: "
                +:+ Py.slice_to 50 original_text +:+ "...")
     end)
    (fun e =>
       print ("  -> Error translating '" +:+ Py.slice_to 50 original_text
              +:+ "...': " +:+ exc_str e)).

(** Line 58: [for i, entry in enumerate(entries_to_translate)]. *)
Fixpoint translate_entries (i n : nat) (refs : list nat) : M unit :=
  match refs with
  | [] => ret tt
  | r :: rest => translate_entry i n r ;;; translate_entries (S i) n rest
  end.

(** Lines 79-90: save when something was translated, and report. *)
Definition finish (filepath : string) : M unit :=
  count <- get_translated_count ;;
  (if (0 <? count)%nat then
     print ("Saving translated file: " +:+ filepath) ;;;
     save filepath ;;;
     print ("Successfully translated " +:+ Py.str_of_nat count +:+ " new entries.")
   else
     print "No new entries were translated in this run.") ;;;
  skipped <- get_skipped_count ;;
  if (0 <? skipped)%nat then
    print ("Skipped a total of " +:+ Py.str_of_nat skipped
           +:+ " entries (already translated, fuzzy, or report-related)."
           +:+ " Note: The count includes entries skipped in the initial filter.")
  else ret tt.

(** Lines 17-90: the body of the outer [try]. *)
Definition process (filepath : string) : M unit :=
  pofile filepath ;;;
  Translator ;;;
  print ("Processing file: " +:+ filepath) ;;;
  entries <- get_po ;;
  print ("Found " +:+ Py.str_of_nat (length entries) +:+ " entries.") ;;;
  let refs := potentially_translatable entries in
  print ("Found " +:+ Py.str_of_nat (length refs) +:+ " entries with empty msgstr.") ;;;
  entries_to_translate <- select_entries refs [] ;;
  print ("Attempting to translate " +:+ Py.str_of_nat (length entries_to_translate)
         +:+ " entries.") ;;;
  translate_entries 0 (length entries_to_translate) entries_to_translate ;;;
  finish filepath.

(** Lines 16-95: [FileNotFoundError] is tried first, then [Exception]. *)
Definition translate_po_file (filepath : string) : M unit :=
  try_except (process filepath)
    (fun e =>
       match exc_type e with
       | FileNotFoundError => print ("Error: File not found at " +:+ filepath)
       | OtherException => print ("An unexpected error occurred: " +:+ exc_str e)
       end).

(** A run of the function from a fresh state. *)
Definition run (filepath : string) : outcome unit * state :=
  translate_po_file filepath initial.

End Script.

(** ** The command line (lines 97-109) *)

Inductive parsed :=
| Namespace (filepath : option string)
| SystemExit (status : nat).

Inductive ending :=
| Exited (status : nat)
| Finished (o : outcome unit).

Definition default_filepath : string := "/opt/odoo18/projects/bb/bbb/i18n/ar_001.po".

Section Main.

Variable env : environment.

(** What argparse does with an argv that holds a string starting with a
    dash (help, an unknown option, the double-dash separator): decided by the
    library, not by the script. *)
Variable parse_option_strings : list string -> parsed.

Definition option_string (a : string) : bool := String.prefix "-" a.

(** [parser.parse_args()] for the parser of lines 98-99: one positional
    argument [filepath] with [nargs='?'] and [default=None].  A second
    positional value is an error, which ends the process with status 2. *)
Definition parse_args (argv : list string) : parsed :=
  if existsb option_string argv then parse_option_strings argv
  else
    match argv with
    | [] => Namespace None
    | [a] => Namespace (Some a)
    | _ :: _ :: _ => SystemExit 2
    end.

Definition main (argv : list string) : ending * state :=
  match parse_args argv with
  | SystemExit status => (Exited status, initial)
  | Namespace None =>
      let filepath := default_filepath in
      let '(o, s) :=
        (print ("No filepath provided via command line. Using default: "
                +:+ filepath) ;;;
         translate_po_file env filepath) initial in
      (Finished o, s)
  | Namespace (Some filepath) =>
      let '(o, s) := translate_po_file env filepath initial in
      (Finished o, s)
  end.

End Main.

(** ** What the loops compute *)

(** The test of the first loop on one entry: no report occurrence and no
    fuzzy flag. *)
Definition selected (e : POEntry) : bool :=
  match report_occurrence (occurrences e) with
  | Some _ => false
  | None => negb (Py.mem "fuzzy" (flags e))
  end.

(** The references the second loop goes through. *)
Definition entries_to_translate (entries : list POEntry) : list nat :=
  List.filter (fun r => selected (entries !!! r)) (potentially_translatable entries).

(** The same selection on the entries themselves. *)
Definition to_translate (e : POEntry) : bool := untranslated e && selected e.

Definition is_print (ev : event) : Prop :=
  match ev with Print _ => True | _ => False end.

(** The texts sent to the service, in the order of the calls. *)
Fixpoint calls_of (tr : list event) : list string :=
  match tr with
  | [] => []
  | CallTranslate t _ :: r => t :: calls_of r
  | _ :: r => calls_of r
  end.

Section Answers.

Variable env : environment.

(** The non-empty text the call number [k] gives for the entry, if any. *)
Definition answer (k : nat) (e : POEntry) : option string :=
  match Translator_translate env k (msgid e) target_language with
  | Return (Some t) => if Py.truthy (text t) then Some (text t) else None
  | Return None => None
  | Raise _ => None
  end.

Definition entry_after (k : nat) (e : POEntry) : POEntry :=
  match answer k e with
  | Some t => set_msgstr e t
  | None => e
  end.

Definition error_line (e : POEntry) (ex : exn) : string :=
  "  -> Error translating '" +:+ Py.slice_to 50 (msgid e) +:+ "...': " +:+ exc_str ex.

(** The events of the second loop: four per entry, the call right after
    the sleep; [c] is the number of the first call. *)
Fixpoint blocks (c : nat) (es : list POEntry) (tr : list event) : Prop :=
  match es with
  | [] => tr = []
  | e :: rest =>
      exists l1 l2 tr',
        tr = Print l1 :: Sleep delay :: CallTranslate (msgid e) target_language
               :: Print l2 :: tr'
        /\ (forall ex, Translator_translate env c (msgid e) target_language = Raise ex ->
                       l2 = error_line e ex)
        /\ blocks (S c) rest tr'
  end.

Definition succeeds (k : nat) (e : POEntry) : bool :=
  match answer k e with
  | Some _ => true
  | None => false
  end.

Fixpoint successes (c : nat) (es : list POEntry) : nat :=
  match es with
  | [] => 0
  | e :: rest => (if succeeds c e then 1 else 0) + successes (S c) rest
  end.

End Answers.

Definition print_or_save (filepath : string) (s : state) (ev : event) : Prop :=
  is_print ev \/ (ev = CallSave filepath (po s) /\ 0 < translated_count s).

(** The script's last word when the body of the outer [try] raises. *)
Definition handler_line (filepath : string) (e : exn) : string :=
  match exc_type e with
  | FileNotFoundError => "Error: File not found at " +:+ filepath
  | OtherException => "An unexpected error occurred: " +:+ exc_str e
  end.

Definition no_call (ev : event) : Prop :=
  match ev with CallTranslate _ _ => False | _ => True end.

(** Every call of the service comes right after a sleep of [delay]. *)
Definition delayed (tr : list event) : Prop :=
  forall i t d, tr !! i = Some (CallTranslate t d) ->
                exists j, i = S j /\ tr !! j = Some (Sleep delay).

(** ** Occurrences that mention a report *)

(** The word, whatever the case of the letters. *)
Definition report_in (s : string) : bool := Py.contains "report" (Py.lower s).

(** Some occurrence pair of the entry contains the word. *)
Definition mentions_report (e : POEntry) : bool :=
  existsb (fun oc => report_in (fst oc) || report_in (snd oc)) (occurrences e).

Definition is_digit (c : ascii) : bool :=
  let n := nat_of_ascii c in (48 <=? n)%nat && (n <=? 57)%nat.

Fixpoint numeric (s : string) : bool :=
  match s with
  | EmptyString => true
  | String c r => is_digit c && numeric r
  end.

(** The line numbers of a catalog read from a file: polib keeps the digits
    after the last colon of a reference, or nothing. *)
Definition line_numbers_read (e : POEntry) : bool :=
  forallb (fun oc => numeric (snd oc)) (occurrences e).

(** ** A sample catalog and sample libraries *)

Module Sample.

Definition header : POEntry := mkPOEntry "" "" [] [] 1.
Definition hello : POEntry :=
  mkPOEntry "Hello" "" [] [("addons/sale/views/sale_views.xml", "12")] 5.
Definition invoice : POEntry :=
  mkPOEntry "Invoice" "" [] [("addons/sale/Report/sale_report.xml", "40")] 9.
Definition bye : POEntry := mkPOEntry "Bye" "" ["fuzzy"] [] 13.
Definition done : POEntry := mkPOEntry "Done" "Fait" [] [] 17.
Definition world : POEntry := mkPOEntry "World" "" ["python-format"] [] 21.

Definition catalog : list POEntry := [header; hello; invoice; bye; done; world].

(** The file [ar.po] holds [catalog] and no other file exists; the first
    call of the service times out, the later ones answer. *)
Definition env : environment :=
  mkEnvironment
    (fun path => if String.eqb path "ar.po" then Return catalog
                 else Raise (mkExn FileNotFoundError "No such file or directory"))
    (Return tt)
    (fun k t d => if (k =? 0)%nat then Raise (mkExn OtherException "timed out")
                  else Return (Some (mkTranslated ("[" +:+ d +:+ "] " +:+ t))))
    (fun _ _ => Return tt).

(** The same, on a disk that refuses the write. *)
Definition env_read_only : environment :=
  mkEnvironment (polib_pofile env) (Return tt) (Translator_translate env)
    (fun _ _ => Raise (mkExn OtherException "Permission denied")).

(** The same, with the service down for the whole run. *)
Definition env_down : environment :=
  mkEnvironment (polib_pofile env) (Return tt)
    (fun _ _ _ => Raise (mkExn OtherException "connection refused"))
    (fun _ _ => Return tt).

End Sample.

(** ** The lines of a run *)

(** What the first loop prints for the entries it goes through: one line for
    an entry it skips, nothing for an entry it keeps. *)
Definition report_skip_line (e : POEntry) (filename : string) : string :=
  "Skipping entry (line " +:+ Py.str_of_nat (linenum e)
  +:+ ") due to 'report' in occurrences: " +:+ filename.

Definition fuzzy_skip_line (e : POEntry) : string :=
  "Skipping fuzzy entry (line " +:+ Py.str_of_nat (linenum e) +:+ "): "
  +:+ Py.slice_to 50 (msgid e) +:+ "...".

Fixpoint select_events (es : list POEntry) : list event :=
  match es with
  | [] => []
  | e :: rest =>
      match report_occurrence (occurrences e) with
      | Some filename => Print (report_skip_line e filename) :: select_events rest
      | None =>
          if Py.mem "fuzzy" (flags e) then Print (fuzzy_skip_line e) :: select_events rest
          else select_events rest
      end
  end.

Definition progress_line (i n : nat) (e : POEntry) : string :=
  "Translating (" +:+ Py.str_of_nat (i + 1) +:+ "/" +:+ Py.str_of_nat n +:+ "): "
  +:+ Py.slice_to 50 (msgid e) +:+ "...".

Definition failed_line (e : POEntry) : string :=
  "  -> Translation failed or returned empty for: " +:+ Py.slice_to 50 (msgid e) +:+ "...".

Definition translated_line (t : string) : string :=
  "  -> Translated to: " +:+ Py.slice_to 50 t +:+ "...".

Definition skipped_line (skipped : nat) : list event :=
  if (0 <? skipped)%nat then
    [Print ("Skipped a total of " +:+ Py.str_of_nat skipped
            +:+ " entries (already translated, fuzzy, or report-related)."
            +:+ " Note: The count includes entries skipped in the initial filter.")]
  else [].

Section Lines.

Variable env : environment.

(** The last line of the second loop for an entry, by the answer of call
    number [k]. *)
Definition result_line (k : nat) (e : POEntry) : string :=
  match Translator_translate env k (msgid e) target_language with
  | Return (Some t) => if Py.truthy (text t) then translated_line (text t) else failed_line e
  | Return None => failed_line e
  | Raise ex => error_line e ex
  end.

(** The events of the second loop, for the entries from position [i] of
    [n], the first call being call number [c]. *)
Fixpoint loop_events (i n c : nat) (es : list POEntry) : list event :=
  match es with
  | [] => []
  | e :: rest =>
      Print (progress_line i n e) :: Sleep delay
        :: CallTranslate (msgid e) target_language :: Print (result_line c e)
        :: loop_events (S i) n (S c) rest
  end.

(** The events after the second loop, the line of the outer handler
    included when save raises. *)
Definition closing_events (filepath : string) (p : list POEntry) (count skipped : nat)
  : list event :=
  if (0 <? count)%nat then
    Print ("Saving translated file: " +:+ filepath) :: CallSave filepath p
      :: match POFile_save env filepath p with
         | Return _ =>
             Print ("Successfully translated " +:+ Py.str_of_nat count +:+ " new entries.")
               :: skipped_line skipped
         | Raise ex => [Print (handler_line filepath ex)]
         end
  else
    Print "No new entries were translated in this run." :: skipped_line skipped.

(** The references whose call gave a text, the first call being number [c]. *)
Fixpoint changed_refs (c : nat) (refs : list nat) (entries : list POEntry) : list nat :=
  match refs with
  | [] => []
  | r :: rest =>
      if succeeds env c (entries !!! r) then r :: changed_refs (S c) rest entries
      else changed_refs (S c) rest entries
  end.

End Lines.

(** The three lines before the first loop. *)
Definition opening_events (filepath : string) (entries : list POEntry) : list event :=
  [ Print ("Processing file: " +:+ filepath);
    Print ("Found " +:+ Py.str_of_nat (length entries) +:+ " entries.");
    Print ("Found " +:+ Py.str_of_nat (length (potentially_translatable entries))
           +:+ " entries with empty msgstr.") ].

Definition attempt_line (n : nat) : string :=
  "Attempting to translate " +:+ Py.str_of_nat n +:+ " entries.".

(** The durations of the sleeps, in the order of the trace. *)
Fixpoint sleeps_of (tr : list event) : list Q :=
  match tr with
  | [] => []
  | Sleep seconds :: r => seconds :: sleeps_of r
  | _ :: r => sleeps_of r
  end.

Definition no_sleep (ev : event) : Prop :=
  match ev with Sleep _ => False | _ => True end.

(** ** More samples *)

Module Sample2.

(** An entry out of a report that is fuzzy as well, with two references. *)
Definition summary : POEntry :=
  mkPOEntry "Summary" "" ["fuzzy"]
    [("addons/account/views/account.xml", "7");
     ("addons/account/report/REPORT_invoice.xml", "3");
     ("addons/account/report/report_tax.xml", "9")] 25.

Definition catalog : list POEntry :=
  [Sample.header; Sample.hello; summary; Sample.done; Sample.world].

(** The service answers the first call with an empty text and the second
    with nothing. *)
Definition env_silent : environment :=
  mkEnvironment (fun _ => Return catalog) (Return tt)
    (fun k _ _ => if (k =? 0)%nat then Return (Some (mkTranslated "")) else Return None)
    (fun _ _ => Return tt).

(** The service answers every call. *)
Definition env_up : environment :=
  mkEnvironment (fun _ => Return catalog) (Return tt)
    (fun _ t d => Return (Some (mkTranslated ("[" +:+ d +:+ "] " +:+ t))))
    (fun _ _ => Return tt).

(** A second run, on the catalog the run with [env_up] leaves. *)
Definition env_again : environment :=
  mkEnvironment (fun _ => Return (po (snd (run env_up "ar.po")))) (Return tt)
    (Translator_translate env_up) (fun _ _ => Return tt).

(** The service answers, the disk refuses the write. *)
Definition env_full_disk : environment :=
  mkEnvironment (fun _ => Return catalog) (Return tt) (Translator_translate env_up)
    (fun _ _ => Raise (mkExn OtherException "No space left on device")).

End Sample2.

(** * The proofs *)

(** ** The model at work *)

Example lower_mixed_case : Py.lower "Sale_REPORT.xml" = "sale_report.xml".
Proof. reflexivity. Qed.

Example report_in_any_case : report_in "addons/sale/Report/sale_report.xml" = true.
Proof. reflexivity. Qed.

Example report_not_in_views : report_in "addons/sale/views/sale_views.xml" = false.
Proof. reflexivity. Qed.

Example remove_first_only :
  Py.remove "fuzzy" ["c-format"; "fuzzy"; "fuzzy"] = Some ["c-format"; "fuzzy"].
Proof. reflexivity. Qed.

Example sample_selection :
  potentially_translatable Sample.catalog = [1; 2; 3; 5]
  /\ entries_to_translate Sample.catalog = [1; 5].
Proof. split; reflexivity. Qed.

Example sample_trace :
  trace (snd (run Sample.env "ar.po"))
  = [ Print "Processing file: ar.po";
      Print "Found 6 entries.";
      Print "Found 4 entries with empty msgstr.";
      Print "Skipping entry (line 9) due to 'report' in occurrences: addons/sale/Report/sale_report.xml";
      Print "Skipping fuzzy entry (line 13): Bye...";
      Print "Attempting to translate 2 entries.";
      Print "Translating (1/2): Hello...";
      Sleep (1 # 2);
      CallTranslate "Hello" "ar";
      Print "  -> Error translating 'Hello...': timed out";
      Print "Translating (2/2): World...";
      Sleep (1 # 2);
      CallTranslate "World" "ar";
      Print "  -> Translated to: [ar] World...";
      Print "Saving translated file: ar.po";
      CallSave "ar.po" (<[5 := set_msgstr Sample.world "[ar] World"]> Sample.catalog);
      Print "Successfully translated 1 new entries.";
      Print "Skipped a total of 2 entries (already translated, fuzzy, or report-related). Note: The count includes entries skipped in the initial filter." ].
Proof. vm_compute. reflexivity. Qed.

Example sample_missing_file :
  run Sample.env "fr.po"
  = (Return tt, mkState [] 0 0 0 [Print "Error: File not found at fr.po"]).
Proof. vm_compute. reflexivity. Qed.

Example sample_service_down :
  po (snd (run Sample.env_down "ar.po")) = Sample.catalog
  /\ translated_count (snd (run Sample.env_down "ar.po")) = 0
  /\ calls_of (trace (snd (run Sample.env_down "ar.po"))) = ["Hello"; "World"].
Proof. vm_compute. repeat split. Qed.

(** ** The loops *)

Section Loops.

Variable env : environment.

Lemma select_entries_spec (refs : list nat) :
  forall (acc : list nat) (s : state),
  exists sk tr,
    select_entries refs acc s
    = (Return (acc ++ List.filter (fun r => selected (po s !!! r)) refs),
       mkState (po s) (translated_count s) sk (calls s) (trace s ++ tr))
    /\ Forall is_print tr.
Proof.
  induction refs as [|r rest IH]; intros acc s.
  - exists (skipped_count s), []. rewrite !app_nil_r. destruct s; simpl. split; [reflexivity|constructor].
  - cbn [select_entries List.filter]. unfold selected at 1, bind at 1, get_entry at 1.
    destruct (report_occurrence (occurrences (po s !!! r))) as [fname|] eqn:Hrep.
    + unfold bind, print, emit, incr_skipped_count. cbn [po translated_count skipped_count calls trace].
      match goal with |- context [select_entries rest acc ?s1] =>
        destruct (IH acc s1) as (sk & tr & Heq & Hpr); rewrite Heq end.
      cbn [po translated_count skipped_count calls trace].
      eexists _, (_ :: tr). rewrite <- app_assoc. split; [reflexivity|].
      constructor; [exact I|assumption].
    + destruct (Py.mem "fuzzy" (flags (po s !!! r))) eqn:Hfz; cbn [negb].
      * unfold bind, print, emit, incr_skipped_count. cbn [po translated_count skipped_count calls trace].
        match goal with |- context [select_entries rest acc ?s1] =>
          destruct (IH acc s1) as (sk & tr & Heq & Hpr); rewrite Heq end.
        cbn [po translated_count skipped_count calls trace].
        eexists _, (_ :: tr). rewrite <- app_assoc. split; [reflexivity|].
        constructor; [exact I|assumption].
      * destruct (IH (acc ++ [r]) s) as (sk & tr & Heq & Hpr). rewrite Heq.
        exists sk, tr. rewrite <- app_assoc. split; [reflexivity|assumption].
Qed.

Lemma translate_entry_spec (i n r : nat) (s : state) :
  r < length (po s) ->
  Py.mem "fuzzy" (flags (po s !!! r)) = false ->
  exists l1 l2,
    translate_entry env i n r s
    = (Return tt,
       mkState (<[r := entry_after env (calls s) (po s !!! r)]> (po s))
               (translated_count s + (if succeeds env (calls s) (po s !!! r) then 1 else 0))
               (skipped_count s) (S (calls s))
               (trace s ++ [Print l1; Sleep delay;
                            CallTranslate (msgid (po s !!! r)) target_language;
                            Print l2]))
    /\ (forall ex,
          Translator_translate env (calls s) (msgid (po s !!! r)) target_language = Raise ex ->
          l2 = error_line (po s !!! r) ex).
Proof.
  intros Hr Hfz.
  unfold translate_entry, entry_after, succeeds, answer, bind, try_except, get_entry, print,
    time_sleep, emit, translate.
  cbn [po translated_count skipped_count calls trace].
  destruct (Translator_translate env (calls s) (msgid (po s !!! r)) target_language)
    as [[t|]|ex] eqn:Hcall.
  - destruct (Py.truthy (text t)) eqn:Htxt.
    + unfold update_entry, flags_remove, incr_translated_count, bind, get_entry, ret.
      cbn [po translated_count skipped_count calls trace].
      rewrite list_lookup_total_insert_eq by assumption.
      cbn [set_msgstr flags msgstr]. rewrite Hfz.
      cbn [po translated_count skipped_count calls trace].
      rewrite list_lookup_total_insert_eq by assumption.
      eexists _, _. rewrite <- !app_assoc. cbn [app msgstr set_msgstr].
      split; [reflexivity|]. intros ex Hex. discriminate.
    + cbn [po translated_count skipped_count calls trace].
      rewrite list_insert_id by (apply list_lookup_lookup_total_lt; assumption).
      rewrite Nat.add_0_r.
      eexists _, _. rewrite <- !app_assoc. cbn [app].
      split; [reflexivity|]. intros ex Hex. discriminate.
  - cbn [po translated_count skipped_count calls trace].
    rewrite list_insert_id by (apply list_lookup_lookup_total_lt; assumption).
    rewrite Nat.add_0_r.
    eexists _, _. rewrite <- !app_assoc. cbn [app].
    split; [reflexivity|]. intros ex Hex. discriminate.
  - cbn [po translated_count skipped_count calls trace].
    rewrite list_insert_id by (apply list_lookup_lookup_total_lt; assumption).
    rewrite Nat.add_0_r.
    eexists _, _. rewrite <- !app_assoc. cbn [app].
    split; [reflexivity|]. intros ex' Hex. injection Hex as <-. reflexivity.
Qed.

Lemma translate_entries_spec (refs : list nat) :
  forall (i n : nat) (s : state),
  NoDup refs ->
  Forall (fun r => r < length (po s)
                   /\ Py.mem "fuzzy" (flags (po s !!! r)) = false) refs ->
  exists p' tr,
    translate_entries env i n refs s
    = (Return tt,
       mkState p'
               (translated_count s + successes env (calls s) (map (fun r => po s !!! r) refs))
               (skipped_count s) (calls s + length refs) (trace s ++ tr))
    /\ length p' = length (po s)
    /\ (forall j, j ∉ refs -> p' !! j = po s !! j)
    /\ (forall k r, refs !! k = Some r ->
                    p' !! r = Some (entry_after env (calls s + k) (po s !!! r)))
    /\ blocks env (calls s) (map (fun r => po s !!! r) refs) tr.
Proof.
  induction refs as [|r rest IH]; intros i n s Hnd Hall.
  - exists (po s), []. cbn. rewrite !Nat.add_0_r, app_nil_r. destruct s; cbn.
    repeat split; auto. intros k r Hk. discriminate.
  - apply NoDup_cons in Hnd as [Hnotin Hnd].
    apply Forall_cons in Hall as [[Hr Hfz] Hall].
    destruct (translate_entry_spec i n r s Hr Hfz) as (l1 & l2 & Hstep & Herr).
    cbn [translate_entries]. unfold bind at 1. rewrite Hstep. cbv beta iota.
    match goal with |- context [translate_entries env (S i) n rest ?s1] => set (s1' := s1) end.
    assert (Hsame : forall r', r' ∈ rest -> po s1' !!! r' = po s !!! r').
    { intros r' Hin. subst s1'. cbn [po].
      apply list_lookup_total_insert_ne. intros ->. contradiction. }
    assert (Hall' : Forall (fun r' => r' < length (po s1')
                      /\ Py.mem "fuzzy" (flags (po s1' !!! r')) = false) rest).
    { rewrite Forall_forall in Hall |- *. intros r' Hin.
      rewrite (Hsame r' Hin). destruct (Hall r' Hin) as [Hlt Hfz'].
      split; [|exact Hfz']. subst s1'. cbn [po]. rewrite length_insert. exact Hlt. }
    destruct (IH (S i) n s1' Hnd Hall') as (p' & tr & Hrun & Hlen & Hframe & Hsteps & Hbl).
    rewrite Hrun.
    assert (Hmap : map (fun r0 => po s1' !!! r0) rest = map (fun r0 => po s !!! r0) rest).
    { apply map_ext_in. intros r' Hin. apply Hsame. apply list_elem_of_In. exact Hin. }
    rewrite Hmap in *. subst s1'. cbn [po translated_count skipped_count calls trace] in *.
    exists p', (Print l1 :: Sleep delay
                :: CallTranslate (msgid (po s !!! r)) target_language :: Print l2 :: tr).
    split.
    { cbn [map successes length]. f_equal. f_equal; [lia|lia|].
      rewrite <- app_assoc. reflexivity. }
    split. { rewrite Hlen, length_insert. reflexivity. }
    split.
    { intros j Hj. apply not_elem_of_cons in Hj as [Hne Hj].
      rewrite (Hframe j Hj). apply list_lookup_insert_ne. congruence. }
    split.
    { intros [|k] r' Hk; cbn in Hk.
      - injection Hk as <-. rewrite Nat.add_0_r.
        rewrite (Hframe r Hnotin). apply list_lookup_insert_eq. exact Hr.
      - rewrite (Hsteps k r' Hk).
        assert (Hin : r' ∈ rest) by (eapply list_elem_of_lookup_2; exact Hk).
        rewrite list_lookup_total_insert_ne by (intros ->; contradiction).
        do 2 f_equal. lia. }
    cbn [map blocks]. exists l1, l2, tr. split; [reflexivity|]. split; [exact Herr|exact Hbl].
Qed.

End Loops.

(** ** The selection *)

Lemma potentially_translatable_spec (entries : list POEntry) (r : nat) :
  r ∈ potentially_translatable entries
  <-> r < length entries /\ untranslated (entries !!! r) = true.
Proof.
  unfold potentially_translatable.
  rewrite list_elem_of_In, filter_In, in_seq. split.
  - intros [[_ Hlt] Hu]. split; [exact Hlt | exact Hu].
  - intros [Hlt Hu]. split; [lia | exact Hu].
Qed.

Lemma entries_to_translate_spec (entries : list POEntry) (r : nat) :
  r ∈ entries_to_translate entries
  <-> r < length entries /\ to_translate (entries !!! r) = true.
Proof.
  unfold entries_to_translate, to_translate.
  rewrite list_elem_of_In, filter_In, <- list_elem_of_In, potentially_translatable_spec.
  rewrite andb_true_iff. tauto.
Qed.

Lemma entries_to_translate_NoDup (entries : list POEntry) :
  NoDup (entries_to_translate entries).
Proof.
  apply NoDup_ListNoDup. unfold entries_to_translate, potentially_translatable.
  do 2 apply List.NoDup_filter. apply seq_NoDup.
Qed.

(** Going through the references reads the selected entries in the order
    of the catalog. *)
Lemma filter_refs {A} `{Inhabited A} (P : A -> bool) (l : list A) :
  forall pre : list A,
    map (fun r => (pre ++ l) !!! r)
        (List.filter (fun r => P ((pre ++ l) !!! r)) (seq (length pre) (length l)))
    = List.filter P l.
Proof.
  induction l as [|x l IH]; intros pre; [reflexivity|].
  cbn [length seq List.filter].
  assert (Hx : (pre ++ x :: l) !!! length pre = x).
  { apply list_lookup_total_correct. apply list_lookup_middle. reflexivity. }
  rewrite Hx.
  specialize (IH (pre ++ [x])). rewrite <- app_assoc, length_app in IH.
  cbn [length app] in IH. rewrite Nat.add_1_r in IH.
  destruct (P x); cbn [map]; [rewrite Hx|]; rewrite IH; reflexivity.
Qed.

Lemma entries_to_translate_entries (entries : list POEntry) :
  map (fun r => entries !!! r) (entries_to_translate entries)
  = List.filter to_translate entries.
Proof.
  unfold entries_to_translate, potentially_translatable.
  pose proof (filter_refs to_translate entries []) as Hf. cbn [app length] in Hf.
  rewrite <- Hf. f_equal. clear Hf.
  induction (seq 0 (length entries)) as [|r l IH]; [reflexivity|].
  cbn [List.filter].
  assert (Ht : to_translate (entries !!! r)
               = untranslated (entries !!! r) && selected (entries !!! r)) by reflexivity.
  rewrite Ht. clear Ht.
  destruct (untranslated (entries !!! r)); cbn [List.filter andb].
  - destruct (selected (entries !!! r)); rewrite IH; reflexivity.
  - exact IH.
Qed.

(** ** A whole run *)

Ltac simpl_state :=
  cbn [po translated_count skipped_count calls trace initial] in *.

Section Run.

Variable env : environment.

Lemma finish_spec (filepath : string) (s : state) :
  exists o post,
    finish env filepath s
    = (o, mkState (po s) (translated_count s) (skipped_count s) (calls s)
                  (trace s ++ post))
    /\ Forall (print_or_save filepath s) post.
Proof.
  unfold finish, bind, get_translated_count, get_skipped_count, print, emit, save, ret.
  cbn [po translated_count skipped_count calls trace].
  destruct (0 <? translated_count s) eqn:Hc;
    [apply Nat.ltb_lt in Hc; destruct (POFile_save env filepath (po s))|];
    cbn [po translated_count skipped_count calls trace];
    try destruct (0 <? skipped_count s);
    cbn [po translated_count skipped_count calls trace];
    eexists _, _; rewrite <- ?app_assoc; cbn [app];
    (split; [reflexivity|]);
    repeat first [ apply Forall_nil_2
                 | apply Forall_cons; split; [first [left; exact I | right; split; [reflexivity|exact Hc]]|] ].
Qed.

Lemma run_pofile_raises (filepath : string) (e : exn) :
  polib_pofile env filepath = Raise e ->
  run env filepath
  = (Return tt, mkState [] 0 0 0 [Print (handler_line filepath e)]).
Proof.
  intros Hload. unfold run, translate_po_file, try_except, process.
  unfold bind at 1, pofile at 1. rewrite Hload. cbv beta iota.
  unfold handler_line. destruct (exc_type e); reflexivity.
Qed.

Lemma run_Translator_raises (filepath : string) (entries : list POEntry) (e : exn) :
  polib_pofile env filepath = Return entries ->
  googletrans_Translator env = Raise e ->
  run env filepath
  = (Return tt, mkState entries 0 0 0 [Print (handler_line filepath e)]).
Proof.
  intros Hload Htr. unfold run, translate_po_file, try_except, process.
  unfold bind at 1, pofile at 1. rewrite Hload. cbv beta iota.
  unfold bind at 1, Translator at 1. rewrite Htr. cbv beta iota.
  unfold handler_line. destruct (exc_type e); reflexivity.
Qed.

Lemma run_loaded (filepath : string) (entries : list POEntry) :
  polib_pofile env filepath = Return entries ->
  googletrans_Translator env = Return tt ->
  let refs := entries_to_translate entries in
  let es := map (fun r => entries !!! r) refs in
  exists p' sk pre tr post,
    run env filepath
    = (Return tt,
       mkState p' (successes env 0 es) sk (length refs) (pre ++ tr ++ post))
    /\ length p' = length entries
    /\ (forall j, j ∉ refs -> p' !! j = entries !! j)
    /\ (forall k r, refs !! k = Some r ->
                    p' !! r = Some (entry_after env k (entries !!! r)))
    /\ Forall is_print pre
    /\ blocks env 0 es tr
    /\ Forall (fun ev => is_print ev
                         \/ (ev = CallSave filepath p' /\ 0 < successes env 0 es)) post.
Proof.
  intros Hload Htr refs es.
  unfold run, translate_po_file, try_except, process.
  unfold bind at 1, pofile at 1. rewrite Hload. cbv beta iota. simpl_state.
  unfold bind at 1, Translator at 1. rewrite Htr. cbv beta iota.
  unfold bind at 1, print at 1, emit at 1. cbv beta iota. simpl_state.
  unfold bind at 1, get_po at 1. cbv beta iota. simpl_state.
  unfold bind at 1, print at 1, emit at 1. cbv beta iota zeta. simpl_state.
  unfold bind at 1, print at 1, emit at 1. cbv beta iota. simpl_state.
  unfold bind at 1.
  match goal with |- context [select_entries ?l [] ?s0] =>
    destruct (select_entries_spec l [] s0) as (sk & tr0 & Hsel & Hpr0); rewrite Hsel end.
  cbv beta iota. simpl_state.
  fold (entries_to_translate entries). fold refs.
  change ([] ++ refs) with refs.
  unfold bind at 1, print at 1, emit at 1. cbv beta iota. simpl_state.
  unfold bind at 1.
  match goal with |- context [translate_entries env 0 ?n refs ?s1] =>
    destruct (translate_entries_spec env refs 0 n s1) as (p' & tr & Hloop & Hlen & Hframe & Hsteps & Hbl)
  end.
  { apply entries_to_translate_NoDup. }
  { apply Forall_forall. intros r Hr. cbn [po].
    apply entries_to_translate_spec in Hr as [Hlt Ht]. split; [exact Hlt|].
    unfold to_translate, selected in Ht. apply andb_true_iff in Ht as [_ Ht].
    destruct (report_occurrence (occurrences (entries !!! r))); [discriminate|].
    apply negb_true_iff in Ht. exact Ht. }
  rewrite Hloop. cbv beta iota.
  cbn [po translated_count skipped_count calls trace] in *.
  fold es in Hbl |- *.
  match goal with |- context [finish env filepath ?s2] =>
    destruct (finish_spec filepath s2) as (o & post & Hfin & Hpost); rewrite Hfin end.
  cbn [po translated_count skipped_count calls trace Nat.add] in *.
  assert (Hpost' : Forall (fun ev => is_print ev
                     \/ (ev = CallSave filepath p' /\ 0 < successes env 0 es)) post).
  { eapply Forall_impl; [exact Hpost|]. intros ev Hev. exact Hev. }
  destruct o as [[]|e].
  - match goal with |- context [mkState _ _ _ _ ((?a ++ tr) ++ post)] =>
      exists p', sk, a, tr, post end.
    split. { rewrite <- !app_assoc. reflexivity. }
    repeat split; try assumption.
    repeat (apply Forall_app; split); try exact Hpr0; repeat constructor.
  - match goal with |- context [mkState _ _ _ _ ((?a ++ tr) ++ post)] =>
      exists p', sk, a, tr, (post ++ [Print (handler_line filepath e)]) end.
    split.
    { unfold handler_line, print, emit.
      destruct (exc_type e); simpl_state; rewrite <- !app_assoc; reflexivity. }
    repeat split; try assumption.
    all: repeat (apply Forall_app; split); try exact Hpr0; try exact Hpost';
      repeat constructor.
Qed.

End Run.

(** ** Traces *)

Lemma calls_of_app (a b : list event) : calls_of (a ++ b) = calls_of a ++ calls_of b.
Proof.
  induction a as [|[] a IH]; cbn [app calls_of]; rewrite ?IH; reflexivity.
Qed.

Lemma calls_of_no_call (l : list event) : Forall no_call l -> calls_of l = [].
Proof.
  induction 1 as [|[] l Hev _ IH]; cbn [calls_of]; try assumption; try reflexivity.
  destruct Hev.
Qed.

Lemma calls_of_elem (l : list event) (t d : string) :
  CallTranslate t d ∈ l -> t ∈ calls_of l.
Proof.
  induction l as [|ev l IH]; intros Hin; [inversion Hin|].
  apply elem_of_cons in Hin as [<-|Hin].
  - cbn [calls_of]. apply elem_of_cons. left. reflexivity.
  - destruct ev; cbn [calls_of]; try (apply IH; exact Hin).
    apply elem_of_cons. right. apply IH. exact Hin.
Qed.

Lemma no_call_delayed (l : list event) : Forall no_call l -> delayed l.
Proof.
  intros Hall i t d Hi. rewrite Forall_forall in Hall.
  apply list_elem_of_lookup_2 in Hi. destruct (Hall _ Hi).
Qed.

Lemma delayed_app (a b : list event) : delayed a -> delayed b -> delayed (a ++ b).
Proof.
  intros Ha Hb i t d Hi. apply lookup_app_Some in Hi as [Hi|[Hle Hi]].
  - destruct (Ha i t d Hi) as (j & -> & Hj). exists j. split; [reflexivity|].
    rewrite lookup_app_l; [exact Hj|]. apply lookup_lt_Some in Hj. exact Hj.
  - destruct (Hb _ t d Hi) as (j & Hij & Hj). exists (length a + j). split; [lia|].
    rewrite lookup_app_r by lia. replace (length a + j - length a) with j by lia. exact Hj.
Qed.

Lemma is_print_no_call (l : list event) : Forall is_print l -> Forall no_call l.
Proof. intros Hall. eapply Forall_impl; [exact Hall|]. intros []; cbn; tauto. Qed.

Section Blocks.

Variable env : environment.

Lemma blocks_calls (es : list POEntry) :
  forall c tr, blocks env c es tr -> calls_of tr = map msgid es.
Proof.
  induction es as [|e es IH]; intros c tr Hbl; cbn [blocks] in Hbl.
  - subst tr. reflexivity.
  - destruct Hbl as (l1 & l2 & tr' & -> & _ & Hbl). cbn [calls_of map].
    f_equal. eapply IH. exact Hbl.
Qed.

Lemma blocks_delayed (es : list POEntry) :
  forall c tr, blocks env c es tr -> delayed tr.
Proof.
  induction es as [|e es IH]; intros c tr Hbl; cbn [blocks] in Hbl.
  - subst tr. intros i t d Hi. destruct i; discriminate.
  - destruct Hbl as (l1 & l2 & tr' & -> & _ & Hbl).
    intros [|[|[|[|i]]]] t d Hi; cbn in Hi; try discriminate.
    + exists 1. split; reflexivity.
    + destruct (IH _ _ Hbl i t d Hi) as (j & -> & Hj).
      exists (S (S (S (S j)))). split; [reflexivity|exact Hj].
Qed.

Lemma blocks_no_save (es : list POEntry) :
  forall c tr fpath l, blocks env c es tr -> CallSave fpath l ∉ tr.
Proof.
  induction es as [|e es IH]; intros c tr fpath l Hbl; cbn [blocks] in Hbl.
  - subst tr. apply not_elem_of_nil.
  - destruct Hbl as (l1 & l2 & tr' & -> & _ & Hbl).
    rewrite !not_elem_of_cons. repeat split; try discriminate.
    eapply IH. exact Hbl.
Qed.

Lemma blocks_error (es : list POEntry) :
  forall c tr k e ex,
    blocks env c es tr ->
    es !! k = Some e ->
    Translator_translate env (c + k) (msgid e) target_language = Raise ex ->
    Print (error_line e ex) ∈ tr.
Proof.
  induction es as [|e0 es IH]; intros c tr k e ex Hbl Hk Hex; [discriminate|].
  cbn [blocks] in Hbl. destruct Hbl as (l1 & l2 & tr' & -> & Herr & Hbl).
  rewrite !elem_of_cons. destruct k as [|k]; cbn in Hk.
  - injection Hk as ->. rewrite Nat.add_0_r in Hex. rewrite (Herr ex Hex). tauto.
  - do 4 right. eapply IH; [exact Hbl|exact Hk|].
    replace (S c + k) with (c + S k) by lia. exact Hex.
Qed.

End Blocks.

(** ** Facts about a run, whatever the libraries answer *)

Section RunFacts.

Variable env : environment.
Variable filepath : string.

Lemma run_returns : fst (run env filepath) = Return tt.
Proof.
  unfold run, translate_po_file, try_except.
  destruct (process env filepath initial) as [[[]|e] s]; [reflexivity|].
  destruct (exc_type e); reflexivity.
Qed.

(** An entry the selection leaves out is the same object after the run,
    and in whatever the run saves. *)
Lemma run_frame (entries : list POEntry) (i : nat) (e : POEntry) :
  polib_pofile env filepath = Return entries ->
  entries !! i = Some e ->
  to_translate e = false ->
  po (snd (run env filepath)) !! i = Some e
  /\ (forall fpath saved,
        CallSave fpath saved ∈ trace (snd (run env filepath)) -> saved !! i = Some e).
Proof.
  intros Hload Hi Hno.
  destruct (googletrans_Translator env) as [[]|ex] eqn:Htr.
  - destruct (run_loaded env filepath entries Hload Htr)
      as (p' & sk & pre & tr & post & Hrun & _ & Hframe & _ & Hpre & Hbl & Hpost).
    rewrite Hrun. cbn [snd po trace].
    assert (Hp : p' !! i = Some e).
    { rewrite Hframe; [exact Hi|]. intros Hin.
      apply entries_to_translate_spec in Hin as [_ Ht].
      rewrite (list_lookup_total_correct _ _ _ Hi) in Ht. congruence. }
    split; [exact Hp|]. intros fpath saved Hin.
    rewrite !elem_of_app in Hin. destruct Hin as [Hin|[Hin|Hin]].
    + rewrite Forall_forall in Hpre. destruct (Hpre _ Hin).
    + exfalso. eapply blocks_no_save; [exact Hbl|exact Hin].
    + rewrite Forall_forall in Hpost. destruct (Hpost _ Hin) as [[]|[Heq _]].
      injection Heq as _ ->. exact Hp.
  - rewrite (run_Translator_raises env filepath entries ex Hload Htr). cbn [snd po trace].
    split; [exact Hi|]. intros fpath saved Hin.
    apply list_elem_of_singleton in Hin. discriminate.
Qed.

Lemma run_calls (entries : list POEntry) :
  polib_pofile env filepath = Return entries ->
  googletrans_Translator env = Return tt ->
  calls_of (trace (snd (run env filepath))) = map msgid (List.filter to_translate entries).
Proof.
  intros Hload Htr.
  destruct (run_loaded env filepath entries Hload Htr)
    as (p' & sk & pre & tr & post & Hrun & _ & _ & _ & Hpre & Hbl & Hpost).
  rewrite Hrun. cbn [snd trace]. rewrite !calls_of_app.
  rewrite (calls_of_no_call pre) by (apply is_print_no_call; exact Hpre).
  rewrite (calls_of_no_call post).
  - rewrite app_nil_r. cbn [app]. rewrite (blocks_calls env _ _ _ Hbl).
    rewrite entries_to_translate_entries. reflexivity.
  - eapply Forall_impl; [exact Hpost|]. intros ev [Hev|[-> _]]; [|exact I].
    destruct ev; try exact I. destruct Hev.
Qed.

(** A call is made for an entry of the catalog that passes the selection. *)
Lemma run_call_entry (t d : string) :
  CallTranslate t d ∈ trace (snd (run env filepath)) ->
  exists entries e,
    polib_pofile env filepath = Return entries
    /\ e ∈ entries /\ to_translate e = true /\ msgid e = t.
Proof.
  intros Hin.
  destruct (polib_pofile env filepath) as [entries|ex] eqn:Hload.
  - destruct (googletrans_Translator env) as [[]|ex] eqn:Htr.
    + apply calls_of_elem in Hin. rewrite (run_calls entries Hload Htr) in Hin.
      apply list_elem_of_In, in_map_iff in Hin as (e & Hid & He).
      apply filter_In in He as [He Ht].
      exists entries, e. rewrite list_elem_of_In. auto.
    + rewrite (run_Translator_raises env filepath entries ex Hload Htr) in Hin.
      cbn [snd trace] in Hin. apply list_elem_of_singleton in Hin. discriminate.
  - rewrite (run_pofile_raises env filepath ex Hload) in Hin.
    cbn [snd trace] in Hin. apply list_elem_of_singleton in Hin. discriminate.
Qed.

Lemma run_delayed : delayed (trace (snd (run env filepath))).
Proof.
  destruct (polib_pofile env filepath) as [entries|ex] eqn:Hload.
  - destruct (googletrans_Translator env) as [[]|ex] eqn:Htr.
    + destruct (run_loaded env filepath entries Hload Htr)
        as (p' & sk & pre & tr & post & Hrun & _ & _ & _ & Hpre & Hbl & Hpost).
      rewrite Hrun. cbn [snd trace].
      apply delayed_app; [|apply delayed_app].
      * apply no_call_delayed, is_print_no_call, Hpre.
      * eapply blocks_delayed. exact Hbl.
      * apply no_call_delayed. eapply Forall_impl; [exact Hpost|].
        intros ev [Hev|[-> _]]; [|exact I]. destruct ev; try exact I. destruct Hev.
    + rewrite (run_Translator_raises env filepath entries ex Hload Htr).
      apply no_call_delayed. repeat constructor.
  - rewrite (run_pofile_raises env filepath ex Hload).
    apply no_call_delayed. repeat constructor.
Qed.

End RunFacts.

(** ** The properties *)

(** C3: an entry whose msgstr is not empty before the run is not modified:
    after the run the catalog holds the very same entry at its place (msgstr,
    flags, occurrences and the rest), and so does everything the run saves. *)
Theorem translated_entries_never_modified
  (env : environment) (filepath : string) (entries : list POEntry)
  (i : nat) (e : POEntry) :
  polib_pofile env filepath = Return entries ->
  entries !! i = Some e ->
  msgstr e <> "" ->
  po (snd (run env filepath)) !! i = Some e
  /\ (forall fpath saved,
        CallSave fpath saved ∈ trace (snd (run env filepath)) -> saved !! i = Some e).
Proof.
  intros Hload Hi Hne. apply (run_frame env filepath entries i e Hload Hi).
  unfold to_translate, untranslated. destruct (msgstr e); [congruence|reflexivity].
Qed.

Lemma translated_entries_never_modified_witness :
  polib_pofile Sample.env "ar.po" = Return Sample.catalog
  /\ Sample.catalog !! 4 = Some Sample.done
  /\ msgstr Sample.done <> ""
  /\ po (snd (run Sample.env "ar.po")) !! 4 = Some Sample.done
  /\ (forall fpath saved,
        CallSave fpath saved ∈ trace (snd (run Sample.env "ar.po")) ->
        saved !! 4 = Some Sample.done).
Proof.
  split; [reflexivity|]. split; [reflexivity|]. split; [discriminate|].
  apply (translated_entries_never_modified Sample.env "ar.po" Sample.catalog 4 Sample.done);
    [reflexivity|reflexivity|discriminate].
Defined.

(** C4: an entry whose flags contain 'fuzzy' before the run is not modified:
    the catalog holds the same entry after the run (msgstr and flags
    included), and so does everything the run saves. *)
Theorem fuzzy_entries_never_modified
  (env : environment) (filepath : string) (entries : list POEntry)
  (i : nat) (e : POEntry) :
  polib_pofile env filepath = Return entries ->
  entries !! i = Some e ->
  "fuzzy" ∈ flags e ->
  po (snd (run env filepath)) !! i = Some e
  /\ (forall fpath saved,
        CallSave fpath saved ∈ trace (snd (run env filepath)) -> saved !! i = Some e).
Proof.
  intros Hload Hi Hfz. apply (run_frame env filepath entries i e Hload Hi).
  unfold to_translate, selected, Py.mem. rewrite (bool_decide_eq_true_2 _ Hfz).
  destruct (report_occurrence (occurrences e)); apply andb_false_r.
Qed.

Lemma fuzzy_entries_never_modified_witness :
  polib_pofile Sample.env "ar.po" = Return Sample.catalog
  /\ Sample.catalog !! 3 = Some Sample.bye
  /\ "fuzzy" ∈ flags Sample.bye
  /\ po (snd (run Sample.env "ar.po")) !! 3 = Some Sample.bye
  /\ (forall fpath saved,
        CallSave fpath saved ∈ trace (snd (run Sample.env "ar.po")) ->
        saved !! 3 = Some Sample.bye).
Proof.
  split; [reflexivity|]. split; [reflexivity|]. split; [constructor|].
  apply (fuzzy_entries_never_modified Sample.env "ar.po" Sample.catalog 3 Sample.bye);
    [reflexivity|reflexivity|constructor].
Defined.

(** C9: an entry whose msgid is empty is not modified, whatever its msgstr,
    and the service is never called for it: no call of the run carries its
    msgid. *)
Theorem empty_msgid_never_translated
  (env : environment) (filepath : string) (entries : list POEntry)
  (i : nat) (e : POEntry) :
  polib_pofile env filepath = Return entries ->
  entries !! i = Some e ->
  msgid e = "" ->
  po (snd (run env filepath)) !! i = Some e
  /\ (forall fpath saved,
        CallSave fpath saved ∈ trace (snd (run env filepath)) -> saved !! i = Some e)
  /\ (forall dest, CallTranslate (msgid e) dest ∉ trace (snd (run env filepath))).
Proof.
  intros Hload Hi Hid.
  assert (Hno : to_translate e = false).
  { unfold to_translate, untranslated. rewrite Hid. cbn. rewrite andb_false_r. reflexivity. }
  destruct (run_frame env filepath entries i e Hload Hi Hno) as [Hpo Hsaved].
  split; [exact Hpo|]. split; [exact Hsaved|].
  intros dest Hin. apply run_call_entry in Hin as (entries' & e' & _ & _ & Ht & Hid').
  unfold to_translate, untranslated in Ht. rewrite Hid', Hid in Ht. cbn in Ht.
  rewrite andb_false_r in Ht. discriminate.
Qed.

Lemma empty_msgid_never_translated_witness :
  polib_pofile Sample.env "ar.po" = Return Sample.catalog
  /\ Sample.catalog !! 0 = Some Sample.header
  /\ msgid Sample.header = ""
  /\ po (snd (run Sample.env "ar.po")) !! 0 = Some Sample.header
  /\ (forall fpath saved,
        CallSave fpath saved ∈ trace (snd (run Sample.env "ar.po")) ->
        saved !! 0 = Some Sample.header)
  /\ (forall dest,
        CallTranslate (msgid Sample.header) dest ∉ trace (snd (run Sample.env "ar.po"))).
Proof.
  split; [reflexivity|]. split; [reflexivity|]. split; [reflexivity|].
  apply (empty_msgid_never_translated Sample.env "ar.po" Sample.catalog 0 Sample.header);
    reflexivity.
Defined.

(** *** Occurrences that mention a report *)

Lemma numeric_no_report (l : string) : numeric l = true -> report_in l = false.
Proof.
  unfold report_in. induction l as [|c r IH]; intros Hnum; [reflexivity|].
  cbn [numeric] in Hnum. apply andb_true_iff in Hnum as [Hc Hr].
  cbn [Py.lower Py.contains]. rewrite (IH Hr), orb_false_r.
  destruct c as [[] [] [] [] [] [] [] []]; try discriminate Hc; reflexivity.
Qed.

Lemma report_occurrence_found (occs : list (string * string)) :
  existsb (fun oc => report_in (fst oc)) occs = true ->
  report_occurrence occs <> None.
Proof.
  induction occs as [|[f l] occs IH]; cbn [existsb report_occurrence fst]; [discriminate|].
  fold (report_in f). destruct (report_in f); [discriminate|]. exact IH.
Qed.

(** The script's test, on the file names alone. *)
Lemma report_file_not_selected (e : POEntry) :
  existsb (fun oc => report_in (fst oc)) (occurrences e) = true ->
  to_translate e = false.
Proof.
  intros Hrep. apply report_occurrence_found in Hrep.
  unfold to_translate, selected.
  destruct (report_occurrence (occurrences e)); [apply andb_false_r|congruence].
Qed.

Lemma mentions_report_file (e : POEntry) :
  line_numbers_read e = true ->
  mentions_report e = true ->
  existsb (fun oc => report_in (fst oc)) (occurrences e) = true.
Proof.
  unfold line_numbers_read, mentions_report.
  induction (occurrences e) as [|[f l] occs IH]; cbn [forallb existsb fst snd];
    [discriminate|].
  intros Hnum Hrep. apply andb_true_iff in Hnum as [Hl Hnum].
  rewrite (numeric_no_report l Hl), orb_false_r in Hrep.
  destruct (report_in f); [reflexivity|]. cbn [orb] in *. exact (IH Hnum Hrep).
Qed.

(** C1: an entry one of whose occurrence pairs contains 'report', in any
    case of the letters, is not modified: the catalog holds the same entry
    after the run (msgstr and flags included), and so does everything the run
    saves.  The line numbers are those of a catalog read from a file, digits
    or nothing, so the word is in a file name, which is where the script
    looks for it. *)
Theorem report_entries_never_modified
  (env : environment) (filepath : string) (entries : list POEntry)
  (i : nat) (e : POEntry) :
  polib_pofile env filepath = Return entries ->
  entries !! i = Some e ->
  line_numbers_read e = true ->
  mentions_report e = true ->
  po (snd (run env filepath)) !! i = Some e
  /\ (forall fpath saved,
        CallSave fpath saved ∈ trace (snd (run env filepath)) -> saved !! i = Some e).
Proof.
  intros Hload Hi Hnum Hrep. apply (run_frame env filepath entries i e Hload Hi).
  apply report_file_not_selected, mentions_report_file; assumption.
Qed.

Lemma report_entries_never_modified_witness :
  polib_pofile Sample.env "ar.po" = Return Sample.catalog
  /\ Sample.catalog !! 2 = Some Sample.invoice
  /\ line_numbers_read Sample.invoice = true
  /\ mentions_report Sample.invoice = true
  /\ po (snd (run Sample.env "ar.po")) !! 2 = Some Sample.invoice
  /\ (forall fpath saved,
        CallSave fpath saved ∈ trace (snd (run Sample.env "ar.po")) ->
        saved !! 2 = Some Sample.invoice).
Proof.
  split; [reflexivity|]. split; [reflexivity|]. split; [reflexivity|].
  split; [reflexivity|].
  apply (report_entries_never_modified Sample.env "ar.po" Sample.catalog 2 Sample.invoice);
    reflexivity.
Defined.

(** *** Translated entries *)

Lemma answer_Some (env : environment) (k : nat) (e : POEntry) (t : string) :
  answer env k e = Some t ->
  t <> ""
  /\ exists tl, Translator_translate env k (msgid e) target_language = Return (Some tl)
                /\ text tl = t.
Proof.
  unfold answer. destruct (Translator_translate env k (msgid e) target_language) as [[tl|]|ex];
    try discriminate.
  destruct (Py.truthy (text tl)) eqn:Htr; [|discriminate].
  intros [= <-]. split; [|eauto]. intros Hnil. rewrite Hnil in Htr. discriminate.
Qed.

Lemma to_translate_inv (e : POEntry) :
  to_translate e = true ->
  msgstr e = "" /\ msgid e <> "" /\ ("fuzzy" ∉ flags e)
  /\ report_occurrence (occurrences e) = None.
Proof.
  unfold to_translate, untranslated, selected, Py.mem. intros Ht.
  apply andb_true_iff in Ht as [Hu Hs]. apply andb_true_iff in Hu as [Hstr Hid].
  destruct (report_occurrence (occurrences e)); [discriminate|].
  apply negb_true_iff, bool_decide_eq_false_1 in Hs.
  repeat split; try assumption.
  - destruct (msgstr e); [reflexivity|discriminate].
  - intros Hnil. rewrite Hnil in Hid. discriminate.
Qed.

(** C2: an entry that the run translated (its msgstr is not what it was
    before the run) has no 'fuzzy' among its flags after the run; its msgstr is
    then the non-empty text that a call of the service returned for its
    msgid. *)
Theorem translated_entry_not_fuzzy
  (env : environment) (filepath : string) (entries : list POEntry)
  (i : nat) (e0 e1 : POEntry) :
  polib_pofile env filepath = Return entries ->
  entries !! i = Some e0 ->
  po (snd (run env filepath)) !! i = Some e1 ->
  msgstr e1 <> msgstr e0 ->
  ("fuzzy" ∉ flags e1)
  /\ exists k tl,
       Translator_translate env k (msgid e0) "ar" = Return (Some tl)
       /\ text tl <> "" /\ msgstr e1 = text tl.
Proof.
  intros Hload Hi Hfin Hchg.
  destruct (googletrans_Translator env) as [[]|ex] eqn:Htr.
  - destruct (run_loaded env filepath entries Hload Htr)
      as (p' & sk & pre & tr & post & Hrun & _ & Hframe & Hsteps & _).
    rewrite Hrun in Hfin. cbn [snd po] in Hfin.
    destruct (decide (i ∈ entries_to_translate entries)) as [Hin|Hout].
    + pose proof Hin as Hsel. apply entries_to_translate_spec in Hsel as [_ Hsel].
      rewrite (list_lookup_total_correct _ _ _ Hi) in Hsel.
      apply to_translate_inv in Hsel as (_ & _ & Hfz & _).
      apply list_elem_of_lookup_1 in Hin as [k Hk].
      rewrite (Hsteps k i Hk), (list_lookup_total_correct _ _ _ Hi) in Hfin.
      injection Hfin as <-. unfold entry_after in *.
      destruct (answer env k e0) as [t|] eqn:Hans; [|congruence].
      cbn [set_msgstr flags msgstr]. split; [exact Hfz|].
      apply answer_Some in Hans as (Hne & tl & Hcall & <-). eauto.
    + rewrite (Hframe i Hout), Hi in Hfin. congruence.
  - rewrite (run_Translator_raises env filepath entries ex Hload Htr) in Hfin.
    cbn [snd po] in Hfin. congruence.
Qed.

Lemma translated_entry_not_fuzzy_witness :
  polib_pofile Sample.env "ar.po" = Return Sample.catalog
  /\ Sample.catalog !! 5 = Some Sample.world
  /\ po (snd (run Sample.env "ar.po")) !! 5 = Some (set_msgstr Sample.world "[ar] World")
  /\ msgstr (set_msgstr Sample.world "[ar] World") <> msgstr Sample.world
  /\ ("fuzzy" ∉ flags (set_msgstr Sample.world "[ar] World"))
  /\ exists k tl,
       Translator_translate Sample.env k (msgid Sample.world) "ar" = Return (Some tl)
       /\ text tl <> "" /\ msgstr (set_msgstr Sample.world "[ar] World") = text tl.
Proof.
  split; [reflexivity|]. split; [reflexivity|]. split; [reflexivity|].
  split; [discriminate|].
  apply (translated_entry_not_fuzzy Sample.env "ar.po" Sample.catalog 5 Sample.world);
    [reflexivity|reflexivity|reflexivity|discriminate].
Defined.

(** *** Saving *)

Lemma successes_pos (env : environment) (es : list POEntry) :
  forall c, 0 < successes env c es ->
            exists k e t, es !! k = Some e /\ answer env (c + k) e = Some t.
Proof.
  induction es as [|e es IH]; intros c Hpos; cbn [successes] in Hpos; [lia|].
  unfold succeeds in Hpos. destruct (answer env c e) as [t|] eqn:Hans.
  - exists 0, e, t. rewrite Nat.add_0_r. split; [reflexivity|exact Hans].
  - destruct (IH (S c) Hpos) as (k & e' & t & Hk & Hans').
    exists (S k), e', t. split; [exact Hk|]. replace (c + S k) with (S c + k) by lia.
    exact Hans'.
Qed.

(** C10: when the count of translated entries is zero at the end of the
    run, the run has not called save; and whenever the run calls save, some
    entry that had no msgstr in the file has one in what is saved. *)
Theorem save_only_when_translated (env : environment) (filepath : string) :
  (translated_count (snd (run env filepath)) = 0 ->
   forall fpath saved, CallSave fpath saved ∉ trace (snd (run env filepath)))
  /\ (forall fpath saved,
        CallSave fpath saved ∈ trace (snd (run env filepath)) ->
        exists entries i e0 e1,
          polib_pofile env filepath = Return entries
          /\ entries !! i = Some e0 /\ saved !! i = Some e1
          /\ msgstr e0 = "" /\ msgstr e1 <> "").
Proof.
  destruct (polib_pofile env filepath) as [entries|ex] eqn:Hload.
  - destruct (googletrans_Translator env) as [[]|ex] eqn:Htr.
    + destruct (run_loaded env filepath entries Hload Htr)
        as (p' & sk & pre & tr & post & Hrun & _ & _ & Hsteps & Hpre & Hbl & Hpost).
      rewrite Hrun. cbn [snd trace translated_count].
      assert (Hsave : forall fpath saved, CallSave fpath saved ∈ pre ++ tr ++ post ->
                saved = p'
                /\ 0 < successes env 0 (map (fun r => entries !!! r)
                                            (entries_to_translate entries))).
      { intros fpath saved Hin. rewrite !elem_of_app in Hin. destruct Hin as [Hin|[Hin|Hin]].
        - rewrite Forall_forall in Hpre. destruct (Hpre _ Hin).
        - exfalso. eapply blocks_no_save; [exact Hbl|exact Hin].
        - rewrite Forall_forall in Hpost. destruct (Hpost _ Hin) as [[]|[Heq Hpos]].
          injection Heq as _ ->. split; [reflexivity|exact Hpos]. }
      split.
      * intros Hzero fpath saved Hin. destruct (Hsave fpath saved Hin) as [_ Hpos]. lia.
      * intros fpath saved Hin. destruct (Hsave fpath saved Hin) as [-> Hpos].
        apply successes_pos in Hpos as (k & e & t & Hk & Hans). cbn [Nat.add] in Hans.
        apply list_lookup_fmap_Some_1 in Hk as (r & -> & Hr).
        assert (Hin' : r ∈ entries_to_translate entries)
          by (eapply list_elem_of_lookup_2; exact Hr).
        apply entries_to_translate_spec in Hin' as [Hlt Hsel].
        apply to_translate_inv in Hsel as (Hempty & _).
        exists entries, r, (entries !!! r), (set_msgstr (entries !!! r) t).
        split; [reflexivity|]. split; [apply list_lookup_lookup_total_lt; exact Hlt|].
        split; [|split; [exact Hempty|]].
        -- rewrite (Hsteps k r Hr). unfold entry_after. rewrite Hans. reflexivity.
        -- apply answer_Some in Hans as [Hne _]. exact Hne.
    + rewrite (run_Translator_raises env filepath entries ex Hload Htr). cbn [snd trace].
      split; [intros _|]; intros fpath saved Hin;
        apply list_elem_of_singleton in Hin; discriminate.
  - rewrite (run_pofile_raises env filepath ex Hload). cbn [snd trace].
    split; [intros _|]; intros fpath saved Hin;
      apply list_elem_of_singleton in Hin; discriminate.
Qed.

Lemma save_only_when_translated_witness :
  (translated_count (snd (run Sample.env_down "ar.po")) = 0
   /\ forall fpath saved, CallSave fpath saved ∉ trace (snd (run Sample.env_down "ar.po")))
  /\ (CallSave "ar.po" (po (snd (run Sample.env "ar.po")))
        ∈ trace (snd (run Sample.env "ar.po"))
      /\ exists entries i e0 e1,
           polib_pofile Sample.env "ar.po" = Return entries
           /\ entries !! i = Some e0
           /\ po (snd (run Sample.env "ar.po")) !! i = Some e1
           /\ msgstr e0 = "" /\ msgstr e1 <> "").
Proof.
  split.
  - split; [reflexivity|].
    apply (proj1 (save_only_when_translated Sample.env_down "ar.po")). reflexivity.
  - assert (Hin : CallSave "ar.po" (po (snd (run Sample.env "ar.po")))
                    ∈ trace (snd (run Sample.env "ar.po"))).
    { apply (list_elem_of_lookup_2 _ 15). reflexivity. }
    split; [exact Hin|].
    exact (proj2 (save_only_when_translated Sample.env "ar.po") _ _ Hin).
Defined.

(** *** Errors *)

(** C5: when the call of the service for an entry raises, the run prints
    the error line for that entry, leaves the entry as it was (its msgstr
    empty, its flags the same), and goes on to the end of the list: the
    service is called for every entry to translate, in order, and the
    function returns.  The call for the entry at place [k] of the list is
    call number [k] of the run. *)
Theorem translation_error_skipped
  (env : environment) (filepath : string) (entries : list POEntry)
  (k r : nat) (e : POEntry) (ex : exn) :
  polib_pofile env filepath = Return entries ->
  googletrans_Translator env = Return tt ->
  entries_to_translate entries !! k = Some r ->
  entries !! r = Some e ->
  Translator_translate env k (msgid e) "ar" = Raise ex ->
  Print ("  -> Error translating '" +:+ Py.slice_to 50 (msgid e) +:+ "...': "
         +:+ exc_str ex) ∈ trace (snd (run env filepath))
  /\ po (snd (run env filepath)) !! r = Some e
  /\ msgstr e = ""
  /\ calls_of (trace (snd (run env filepath)))
     = map msgid (List.filter to_translate entries)
  /\ fst (run env filepath) = Return tt.
Proof.
  intros Hload Htr Hk Hr Hex.
  pose proof (run_calls env filepath entries Hload Htr) as Hcalls.
  pose proof (run_returns env filepath) as Hret.
  destruct (run_loaded env filepath entries Hload Htr)
    as (p' & sk & pre & tr & post & Hrun & _ & _ & Hsteps & _ & Hbl & _).
  rewrite Hrun in *. cbn [snd fst po trace] in *.
  pose proof (list_lookup_total_correct _ _ _ Hr) as Htot.
  split; [|split; [|split; [|split; [exact Hcalls|exact Hret]]]].
  - rewrite !elem_of_app. right. left.
    apply (blocks_error env _ 0 tr k e ex Hbl); [|exact Hex].
    rewrite list_lookup_fmap, Hk. cbn. rewrite Htot. reflexivity.
  - rewrite (Hsteps k r Hk), Htot. unfold entry_after, answer, target_language.
    rewrite Hex. reflexivity.
  - assert (Hin : r ∈ entries_to_translate entries)
      by (eapply list_elem_of_lookup_2; exact Hk).
    apply entries_to_translate_spec in Hin as [_ Hsel]. rewrite Htot in Hsel.
    apply to_translate_inv in Hsel as [Hempty _]. exact Hempty.
Qed.

Lemma translation_error_skipped_witness :
  polib_pofile Sample.env "ar.po" = Return Sample.catalog
  /\ googletrans_Translator Sample.env = Return tt
  /\ entries_to_translate Sample.catalog !! 0 = Some 1
  /\ Sample.catalog !! 1 = Some Sample.hello
  /\ Translator_translate Sample.env 0 (msgid Sample.hello) "ar"
     = Raise (mkExn OtherException "timed out")
  /\ Print "  -> Error translating 'Hello...': timed out"
       ∈ trace (snd (run Sample.env "ar.po"))
  /\ po (snd (run Sample.env "ar.po")) !! 1 = Some Sample.hello
  /\ msgstr Sample.hello = ""
  /\ calls_of (trace (snd (run Sample.env "ar.po"))) = ["Hello"; "World"]
  /\ fst (run Sample.env "ar.po") = Return tt.
Proof.
  do 5 (split; [reflexivity|]).
  exact (translation_error_skipped Sample.env "ar.po" Sample.catalog 0 1 Sample.hello
           (mkExn OtherException "timed out") eq_refl eq_refl eq_refl eq_refl eq_refl).
Defined.

(** C6: the function never lets an exception out: it returns whatever the
    libraries do.  When opening the file raises FileNotFoundError, all it does
    is print the file-not-found line; when the body raises any other
    exception, it prints the unexpected-error line with the exception's
    message, after what the body did until then. *)
Theorem errors_caught_and_printed (env : environment) (filepath : string) :
  fst (run env filepath) = Return tt
  /\ (forall ex,
        polib_pofile env filepath = Raise ex ->
        exc_type ex = FileNotFoundError ->
        trace (snd (run env filepath)) = [Print ("Error: File not found at " +:+ filepath)])
  /\ (forall ex s,
        process env filepath initial = (Raise ex, s) ->
        exc_type ex = OtherException ->
        po (snd (run env filepath)) = po s
        /\ trace (snd (run env filepath))
           = trace s ++ [Print ("An unexpected error occurred: " +:+ exc_str ex)]).
Proof.
  split; [apply run_returns|]. split.
  - intros ex Hload Hty. rewrite (run_pofile_raises env filepath ex Hload).
    unfold handler_line. rewrite Hty. reflexivity.
  - intros ex s Hproc Hty. unfold run, translate_po_file, try_except.
    rewrite Hproc, Hty. split; reflexivity.
Qed.

Lemma errors_caught_and_printed_witness :
  (polib_pofile Sample.env "missing.po"
   = Raise (mkExn FileNotFoundError "No such file or directory")
   /\ fst (run Sample.env "missing.po") = Return tt
   /\ trace (snd (run Sample.env "missing.po"))
      = [Print "Error: File not found at missing.po"])
  /\ (exists s,
        process Sample.env_read_only "ar.po" initial
        = (Raise (mkExn OtherException "Permission denied"), s)
        /\ fst (run Sample.env_read_only "ar.po") = Return tt
        /\ po (snd (run Sample.env_read_only "ar.po")) = po s
        /\ trace (snd (run Sample.env_read_only "ar.po"))
           = trace s ++ [Print "An unexpected error occurred: Permission denied"]).
Proof.
  split.
  - split; [reflexivity|]. split.
    + exact (proj1 (errors_caught_and_printed Sample.env "missing.po")).
    + exact (proj1 (proj2 (errors_caught_and_printed Sample.env "missing.po"))
               (mkExn FileNotFoundError "No such file or directory") eq_refl eq_refl).
  - assert (Hproc : process Sample.env_read_only "ar.po" initial
                    = (Raise (mkExn OtherException "Permission denied"),
                       snd (process Sample.env_read_only "ar.po" initial)))
      by (vm_compute; reflexivity).
    exists (snd (process Sample.env_read_only "ar.po" initial)).
    split; [exact Hproc|]. split.
    + exact (proj1 (errors_caught_and_printed Sample.env_read_only "ar.po")).
    + exact (proj2 (proj2 (errors_caught_and_printed Sample.env_read_only "ar.po"))
               (mkExn OtherException "Permission denied")
               (snd (process Sample.env_read_only "ar.po" initial)) Hproc eq_refl).
Defined.

(** *** The command line *)

(** C7: the command line takes one positional argument, which may be left
    out.  With no argument the program announces the default and runs
    translate_po_file on '/opt/odoo18/projects/bb/bbb/i18n/ar_001.po'; with
    one argument it runs translate_po_file on that path; with two or more it
    stops with the usage error and runs nothing.  Arguments here are values,
    not option strings: they do not start with a dash. *)
Theorem cli_one_optional_path
  (env : environment) (parse_option_strings : list string -> parsed) :
  (let r :=
     translate_po_file env "/opt/odoo18/projects/bb/bbb/i18n/ar_001.po"
       (mkState [] 0 0 0
          [Print ("No filepath provided via command line. Using default: "
                  +:+ "/opt/odoo18/projects/bb/bbb/i18n/ar_001.po")]) in
   main env parse_option_strings [] = (Finished (fst r), snd r))
  /\ (forall p,
        option_string p = false ->
        main env parse_option_strings [p]
        = (Finished (fst (run env p)), snd (run env p)))
  /\ (forall p q rest,
        existsb option_string (p :: q :: rest) = false ->
        main env parse_option_strings (p :: q :: rest) = (Exited 2, initial)).
Proof.
  split; [|split].
  - cbv zeta. unfold main, parse_args. cbn [existsb].
    unfold bind at 1, print at 1, emit at 1. cbn [po translated_count skipped_count calls trace initial app].
    unfold default_filepath.
    destruct (translate_po_file env _ _) as [o s]. reflexivity.
  - intros p Hp. unfold main, parse_args. cbn [existsb]. rewrite Hp. cbn [orb].
    unfold run. destruct (translate_po_file env p initial) as [o s]. reflexivity.
  - intros p q rest Hargs. unfold main, parse_args. rewrite Hargs. reflexivity.
Qed.

Lemma cli_one_optional_path_witness :
  option_string "ar.po" = false
  /\ main Sample.env (fun _ => SystemExit 0) ["ar.po"]
     = (Finished (fst (run Sample.env "ar.po")), snd (run Sample.env "ar.po"))
  /\ existsb option_string ["ar.po"; "fr.po"] = false
  /\ main Sample.env (fun _ => SystemExit 0) ["ar.po"; "fr.po"] = (Exited 2, initial).
Proof.
  split; [reflexivity|]. split.
  - exact (proj1 (proj2 (cli_one_optional_path Sample.env (fun _ => SystemExit 0)))
             "ar.po" eq_refl).
  - split; [reflexivity|].
    exact (proj2 (proj2 (cli_one_optional_path Sample.env (fun _ => SystemExit 0)))
             "ar.po" "fr.po" [] eq_refl).
Defined.

(** *** Order and delay of the calls *)

(** C8: the service is called for the entries that pass the selection, one
    call each, in the order of the catalog; every call comes right after a
    sleep of half a second, so between two calls there is always a sleep. *)
Theorem calls_in_order_after_delay (env : environment) (filepath : string) :
  (forall entries,
     polib_pofile env filepath = Return entries ->
     googletrans_Translator env = Return tt ->
     calls_of (trace (snd (run env filepath)))
     = map msgid (List.filter to_translate entries))
  /\ (forall i t d,
        trace (snd (run env filepath)) !! i = Some (CallTranslate t d) ->
        exists j, i = S j /\ trace (snd (run env filepath)) !! j = Some (Sleep (1 # 2)))
  /\ (forall i1 i2 t1 d1 t2 d2,
        i1 < i2 ->
        trace (snd (run env filepath)) !! i1 = Some (CallTranslate t1 d1) ->
        trace (snd (run env filepath)) !! i2 = Some (CallTranslate t2 d2) ->
        exists j, i1 < j < i2
                  /\ trace (snd (run env filepath)) !! j = Some (Sleep (1 # 2))).
Proof.
  split; [|split].
  - intros entries Hload Htr. apply run_calls; assumption.
  - exact (run_delayed env filepath).
  - intros i1 i2 t1 d1 t2 d2 Hlt H1 H2.
    destruct (run_delayed env filepath i2 t2 d2 H2) as (j & -> & Hj).
    exists j. split; [|exact Hj].
    destruct (decide (i1 = j)) as [->|Hne]; [congruence|lia].
Qed.

Lemma calls_in_order_after_delay_witness :
  calls_of (trace (snd (run Sample.env "ar.po"))) = ["Hello"; "World"]
  /\ trace (snd (run Sample.env "ar.po")) !! 11 = Some (Sleep (1 # 2))
  /\ exists j, 8 < j < 12 /\ trace (snd (run Sample.env "ar.po")) !! j = Some (Sleep (1 # 2)).
Proof.
  pose proof (calls_in_order_after_delay Sample.env "ar.po") as (Horder & Hdelay & Hbetween).
  split; [exact (Horder Sample.catalog eq_refl eq_refl)|]. split.
  - destruct (Hdelay 12 "World" "ar" eq_refl) as (j & Hj & Hsleep).
    injection Hj as <-. exact Hsleep.
  - apply (Hbetween 8 12 "Hello" "ar" "World" "ar"); [lia|reflexivity|reflexivity].
Defined.

(** * The whole trace of a run *)

Lemma select_entries_exact (refs : list nat) :
  forall (acc : list nat) (s : state),
    select_entries refs acc s
    = (Return (acc ++ List.filter (fun r => selected (po s !!! r)) refs),
       mkState (po s) (translated_count s)
               (skipped_count s
                + length (List.filter (fun r => negb (selected (po s !!! r))) refs))
               (calls s)
               (trace s ++ select_events (map (fun r => po s !!! r) refs))).
Proof.
  induction refs as [|r rest IH]; intros acc s.
  - cbn. rewrite !app_nil_r, Nat.add_0_r. destruct s; reflexivity.
  - cbn [select_entries List.filter map select_events].
    unfold bind at 1, get_entry at 1.
    assert (Hsel : selected (po s !!! r)
                   = match report_occurrence (occurrences (po s !!! r)) with
                     | Some _ => false
                     | None => negb (Py.mem "fuzzy" (flags (po s !!! r)))
                     end) by reflexivity.
    rewrite Hsel. clear Hsel.
    destruct (report_occurrence (occurrences (po s !!! r))) as [fname|].
    + unfold bind, print, emit, incr_skipped_count. simpl_state.
      rewrite IH. simpl_state. cbn [negb length]. unfold report_skip_line.
      rewrite <- app_assoc. cbn [app]. do 2 f_equal. lia.
    + destruct (Py.mem "fuzzy" (flags (po s !!! r))); cbn [negb length].
      * unfold bind, print, emit, incr_skipped_count. simpl_state.
        rewrite IH. simpl_state. unfold fuzzy_skip_line.
        rewrite <- app_assoc. cbn [app]. do 2 f_equal. lia.
      * rewrite IH. rewrite <- app_assoc. reflexivity.
Qed.

Lemma translate_entry_exact (env : environment) (i n r : nat) (s : state) :
  r < length (po s) ->
  Py.mem "fuzzy" (flags (po s !!! r)) = false ->
  translate_entry env i n r s
  = (Return tt,
     mkState (<[r := entry_after env (calls s) (po s !!! r)]> (po s))
             (translated_count s + (if succeeds env (calls s) (po s !!! r) then 1 else 0))
             (skipped_count s) (S (calls s))
             (trace s ++ [Print (progress_line i n (po s !!! r)); Sleep delay;
                          CallTranslate (msgid (po s !!! r)) target_language;
                          Print (result_line env (calls s) (po s !!! r))])).
Proof.
  intros Hr Hfz.
  unfold translate_entry, entry_after, succeeds, answer, result_line, bind, try_except,
    get_entry, print, time_sleep, emit, translate.
  simpl_state.
  destruct (Translator_translate env (calls s) (msgid (po s !!! r)) target_language)
    as [[t|]|ex].
  - destruct (Py.truthy (text t)).
    + unfold update_entry, flags_remove, incr_translated_count, bind, get_entry, ret.
      simpl_state.
      rewrite list_lookup_total_insert_eq by assumption.
      cbn [set_msgstr flags msgstr]. rewrite Hfz. simpl_state.
      rewrite list_lookup_total_insert_eq by assumption.
      rewrite <- !app_assoc. reflexivity.
    + simpl_state.
      rewrite list_insert_id by (apply list_lookup_lookup_total_lt; assumption).
      rewrite Nat.add_0_r, <- !app_assoc. reflexivity.
  - simpl_state.
    rewrite list_insert_id by (apply list_lookup_lookup_total_lt; assumption).
    rewrite Nat.add_0_r, <- !app_assoc. reflexivity.
  - simpl_state.
    rewrite list_insert_id by (apply list_lookup_lookup_total_lt; assumption).
    rewrite Nat.add_0_r, <- !app_assoc. reflexivity.
Qed.

Lemma translate_entries_events (env : environment) (refs : list nat) :
  forall (i n : nat) (s : state),
    NoDup refs ->
    Forall (fun r => r < length (po s)
                     /\ Py.mem "fuzzy" (flags (po s !!! r)) = false) refs ->
    trace (snd (translate_entries env i n refs s))
    = trace s ++ loop_events env i n (calls s) (map (fun r => po s !!! r) refs).
Proof.
  induction refs as [|r rest IH]; intros i n s Hnd Hall.
  - cbn. rewrite app_nil_r. reflexivity.
  - apply NoDup_cons in Hnd as [Hnotin Hnd].
    apply Forall_cons in Hall as [[Hr Hfz] Hall].
    cbn [translate_entries]. unfold bind at 1.
    rewrite (translate_entry_exact env i n r s Hr Hfz). cbv beta iota.
    match goal with |- context [translate_entries env (S i) n rest ?s1] => set (s1' := s1) end.
    assert (Hsame : forall r', r' ∈ rest -> po s1' !!! r' = po s !!! r').
    { intros r' Hin. subst s1'. cbn [po].
      apply list_lookup_total_insert_ne. intros ->. contradiction. }
    rewrite IH; [|exact Hnd|].
    + assert (Hmap : map (fun r0 => po s1' !!! r0) rest = map (fun r0 => po s !!! r0) rest).
      { apply map_ext_in. intros r' Hin. apply Hsame. apply list_elem_of_In. exact Hin. }
      rewrite Hmap. subst s1'. cbn [trace calls map loop_events].
      rewrite <- app_assoc. reflexivity.
    + rewrite Forall_forall in Hall |- *. intros r' Hin.
      rewrite (Hsame r' Hin). destruct (Hall r' Hin) as [Hlt Hfz'].
      split; [|exact Hfz']. subst s1'. cbn [po]. rewrite length_insert. exact Hlt.
Qed.

Lemma filter_split_length {A} (P : A -> bool) (l : list A) :
  length (List.filter (fun x => negb (P x)) l) + length (List.filter P l) = length l.
Proof.
  induction l as [|x l IH]; [reflexivity|].
  cbn [List.filter]. destruct (P x); cbn [negb length]; lia.
Qed.

Lemma finish_closing (env : environment) (filepath : string) (s : state) :
  exists o ev,
    finish env filepath s
    = (o, mkState (po s) (translated_count s) (skipped_count s) (calls s) (trace s ++ ev))
    /\ match o with
       | Return _ => ev
       | Raise ex => ev ++ [Print (handler_line filepath ex)]
       end
       = closing_events env filepath (po s) (translated_count s) (skipped_count s).
Proof.
  unfold finish, closing_events, skipped_line, bind, get_translated_count,
    get_skipped_count, print, emit, save, ret.
  simpl_state.
  destruct (0 <? translated_count s);
    [destruct (POFile_save env filepath (po s))|];
    simpl_state; try destruct (0 <? skipped_count s); simpl_state;
    eexists _, _; rewrite <- ?app_assoc; cbn [app]; (split; [reflexivity|]); reflexivity.
Qed.

Section Events.

Variable env : environment.
Variable filepath : string.
Variable entries : list POEntry.

Hypothesis Hload : polib_pofile env filepath = Return entries.
Hypothesis Htr : googletrans_Translator env = Return tt.

(** The final state of a run that got its catalog and its translator, with
    its trace event by event. *)
Lemma run_exact :
  exists p' sk,
    sk + length (entries_to_translate entries) = length (potentially_translatable entries)
    /\ run env filepath
       = (Return tt,
          mkState p'
            (successes env 0 (map (fun r => entries !!! r) (entries_to_translate entries)))
            sk (length (entries_to_translate entries))
            (opening_events filepath entries
             ++ select_events
                  (map (fun r => entries !!! r) (potentially_translatable entries))
             ++ [Print (attempt_line (length (entries_to_translate entries)))]
             ++ loop_events env 0 (length (entries_to_translate entries)) 0
                  (map (fun r => entries !!! r) (entries_to_translate entries))
             ++ closing_events env filepath p'
                  (successes env 0
                     (map (fun r => entries !!! r) (entries_to_translate entries)))
                  sk)).
Proof.
  set (refs := entries_to_translate entries).
  unfold run, translate_po_file, try_except, process.
  unfold bind at 1, pofile at 1. rewrite Hload. cbv beta iota. simpl_state.
  unfold bind at 1, Translator at 1. rewrite Htr. cbv beta iota.
  unfold bind at 1, print at 1, emit at 1. cbv beta iota. simpl_state.
  unfold bind at 1, get_po at 1. cbv beta iota. simpl_state.
  unfold bind at 1, print at 1, emit at 1. cbv beta iota zeta. simpl_state.
  unfold bind at 1, print at 1, emit at 1. cbv beta iota. simpl_state.
  unfold bind at 1. rewrite select_entries_exact. cbv beta iota. simpl_state.
  fold (entries_to_translate entries). fold refs.
  change ([] ++ refs) with refs.
  unfold bind at 1, print at 1, emit at 1. cbv beta iota. simpl_state.
  unfold bind at 1.
  assert (Hnd : NoDup refs) by apply entries_to_translate_NoDup.
  match goal with |- context [translate_entries env 0 ?n refs ?s1] =>
    assert (Hall : Forall (fun r => r < length (po s1)
                     /\ Py.mem "fuzzy" (flags (po s1 !!! r)) = false) refs);
    [|pose proof (translate_entries_events env refs 0 n s1 Hnd Hall) as Hev;
      destruct (translate_entries_spec env refs 0 n s1 Hnd Hall)
        as (p' & tr & Hloop & _)]
  end.
  { apply Forall_forall. intros r Hr. cbn [po].
    apply entries_to_translate_spec in Hr as [Hlt Ht]. split; [exact Hlt|].
    unfold to_translate, selected in Ht. apply andb_true_iff in Ht as [_ Ht].
    destruct (report_occurrence (occurrences (entries !!! r))); [discriminate|].
    apply negb_true_iff in Ht. exact Ht. }
  rewrite Hloop in Hev |- *. cbv beta iota. simpl_state. cbn [snd] in Hev.
  apply app_inv_head in Hev. subst tr.
  match goal with |- context [finish env filepath ?s2] =>
    destruct (finish_closing env filepath s2) as (o & ev & Hfin & Hclose); rewrite Hfin end.
  simpl_state. cbn [Nat.add] in *.
  pose proof (filter_split_length (fun r => selected (entries !!! r))
                (potentially_translatable entries)) as Hlen.
  fold (entries_to_translate entries) in Hlen. fold refs in Hlen.
  exists p', (length (List.filter (fun r => negb (selected (entries !!! r)))
                       (potentially_translatable entries))).
  split; [exact Hlen|]. rewrite <- Hclose.
  destruct o as [[]|ex].
  - unfold opening_events, attempt_line. rewrite <- !app_assoc. reflexivity.
  - unfold print, emit, opening_events, attempt_line, handler_line.
    destruct (exc_type ex); simpl_state; rewrite <- !app_assoc; reflexivity.
Qed.

End Events.

(** ** Facts about the events *)

Lemma select_events_prints (es : list POEntry) : Forall is_print (select_events es).
Proof.
  induction es as [|e es IH]; cbn [select_events]; [constructor|].
  destruct (report_occurrence (occurrences e)); [constructor; [exact I|exact IH]|].
  destruct (Py.mem "fuzzy" (flags e)); [constructor; [exact I|exact IH]|exact IH].
Qed.

Lemma select_events_report (es : list POEntry) (e : POEntry) (filename : string) :
  e ∈ es ->
  report_occurrence (occurrences e) = Some filename ->
  Print (report_skip_line e filename) ∈ select_events es.
Proof.
  intros Hin Hrep. induction es as [|e' es IH]; [inversion Hin|].
  apply elem_of_cons in Hin as [<-|Hin]; cbn [select_events].
  - rewrite Hrep. apply elem_of_cons. left. reflexivity.
  - specialize (IH Hin).
    destruct (report_occurrence (occurrences e'));
      [apply elem_of_cons; right; exact IH|].
    destruct (Py.mem "fuzzy" (flags e')); [apply elem_of_cons; right|]; exact IH.
Qed.

Section EventFacts.

Variable env : environment.

Lemma loop_events_lines (es : list POEntry) :
  forall i n c k e,
    es !! k = Some e ->
    Print (progress_line (i + k) n e) ∈ loop_events env i n c es
    /\ Print (result_line env (c + k) e) ∈ loop_events env i n c es.
Proof.
  induction es as [|e0 es IH]; intros i n c k e Hk; [discriminate|].
  cbn [loop_events]. rewrite !elem_of_cons. destruct k as [|k]; cbn in Hk.
  - injection Hk as ->. rewrite !Nat.add_0_r. tauto.
  - destruct (IH (S i) n (S c) k e Hk) as [Hp Hr].
    replace (i + S k) with (S i + k) by lia. replace (c + S k) with (S c + k) by lia.
    tauto.
Qed.

Lemma loop_events_no_save (es : list POEntry) :
  forall i n c, Forall (fun ev => forall fpath l, ev <> CallSave fpath l)
                       (loop_events env i n c es).
Proof.
  induction es as [|e es IH]; intros i n c; cbn [loop_events]; [constructor|].
  repeat (constructor; [discriminate|]). apply IH.
Qed.

Lemma successes_lookup (es : list POEntry) :
  forall c k e, es !! k = Some e -> succeeds env (c + k) e = true ->
                0 < successes env c es.
Proof.
  induction es as [|e0 es IH]; intros c k e Hk Hs; [discriminate|].
  cbn [successes]. destruct k as [|k]; cbn in Hk.
  - injection Hk as ->. rewrite Nat.add_0_r in Hs. rewrite Hs. lia.
  - enough (0 < successes env (S c) es) by lia.
    apply (IH (S c) k e Hk). replace (S c + k) with (c + S k) by lia. exact Hs.
Qed.

Lemma closing_events_save (filepath : string) (p : list POEntry) (count skipped : nat) :
  0 < count ->
  exists after,
    closing_events env filepath p count skipped
    = Print ("Saving translated file: " +:+ filepath) :: CallSave filepath p :: after
    /\ Forall is_print after.
Proof.
  intros Hpos. unfold closing_events, skipped_line.
  apply Nat.ltb_lt in Hpos. rewrite Hpos.
  destruct (POFile_save env filepath p); eexists; (split; [reflexivity|]).
  - destruct (0 <? skipped); repeat constructor.
  - repeat constructor.
Qed.

Lemma changed_refs_length (refs : list nat) (entries : list POEntry) :
  forall c, length (changed_refs env c refs entries)
            = successes env c (map (fun r => entries !!! r) refs).
Proof.
  induction refs as [|r refs IH]; intros c; [reflexivity|].
  cbn [changed_refs map successes].
  destruct (succeeds env c (entries !!! r)); cbn [length]; rewrite IH; reflexivity.
Qed.

Lemma changed_refs_elem (refs : list nat) (entries : list POEntry) :
  forall c r,
    r ∈ changed_refs env c refs entries
    <-> exists k, refs !! k = Some r /\ succeeds env (c + k) (entries !!! r) = true.
Proof.
  induction refs as [|r0 refs IH]; intros c r; cbn [changed_refs].
  - split; [intros Hin; inversion Hin|intros (k & Hk & _); discriminate].
  - split.
    + intros Hin.
      assert (Hcases : (r = r0 /\ succeeds env c (entries !!! r0) = true)
                       \/ r ∈ changed_refs env (S c) refs entries).
      { destruct (succeeds env c (entries !!! r0)); [|right; exact Hin].
        apply elem_of_cons in Hin as [->|Hin]; [left; split; reflexivity|right; exact Hin]. }
      destruct Hcases as [[-> Hs]|Hin'].
      * exists 0. rewrite Nat.add_0_r. split; [reflexivity|exact Hs].
      * apply IH in Hin' as (k & Hk & Hs). exists (S k). split; [exact Hk|].
        replace (c + S k) with (S c + k) by lia. exact Hs.
    + intros ([|k] & Hk & Hs); cbn in Hk.
      * injection Hk as ->. rewrite Nat.add_0_r in Hs. rewrite Hs.
        apply elem_of_cons. left. reflexivity.
      * assert (Hin : r ∈ changed_refs env (S c) refs entries).
        { apply IH. exists k. split; [exact Hk|].
          replace (S c + k) with (c + S k) by lia. exact Hs. }
        destruct (succeeds env c (entries !!! r0)); [apply elem_of_cons; right|]; exact Hin.
Qed.

Lemma changed_refs_NoDup (refs : list nat) (entries : list POEntry) :
  forall c, NoDup refs -> NoDup (changed_refs env c refs entries).
Proof.
  induction refs as [|r refs IH]; intros c Hnd; cbn [changed_refs]; [constructor|].
  apply NoDup_cons in Hnd as [Hnotin Hnd].
  destruct (succeeds env c (entries !!! r)); [|apply IH; exact Hnd].
  apply NoDup_cons. split; [|apply IH; exact Hnd].
  intros Hin. apply changed_refs_elem in Hin as (k & Hk & _).
  apply Hnotin. eapply list_elem_of_lookup_2. exact Hk.
Qed.

(** Everything known about a run that got its catalog and its translator. *)
Lemma run_full (filepath : string) (entries : list POEntry) :
  polib_pofile env filepath = Return entries ->
  googletrans_Translator env = Return tt ->
  let refs := entries_to_translate entries in
  let es := map (fun r => entries !!! r) refs in
  exists p' sk,
    run env filepath
    = (Return tt,
       mkState p' (successes env 0 es) sk (length refs)
         (opening_events filepath entries
          ++ select_events (map (fun r => entries !!! r) (potentially_translatable entries))
          ++ [Print (attempt_line (length refs))]
          ++ loop_events env 0 (length refs) 0 es
          ++ closing_events env filepath p' (successes env 0 es) sk))
    /\ sk + length refs = length (potentially_translatable entries)
    /\ length p' = length entries
    /\ (forall j, j ∉ refs -> p' !! j = entries !! j)
    /\ (forall k r, refs !! k = Some r ->
                    p' !! r = Some (entry_after env k (entries !!! r))).
Proof.
  intros Hload Htr refs es.
  destruct (run_exact env filepath entries Hload Htr) as (p' & sk & Hsk & Hrun).
  destruct (run_loaded env filepath entries Hload Htr)
    as (p'' & sk' & pre & tr & post & Hrun' & Hlen & Hframe & Hsteps & _).
  rewrite Hrun in Hrun'. injection Hrun' as -> _ _.
  exists p'', sk. auto.
Qed.

End EventFacts.

(** * Further properties of the script *)

Lemma blocks_dest (env : environment) (es : list POEntry) :
  forall c tr t d, blocks env c es tr -> CallTranslate t d ∈ tr -> d = target_language.
Proof.
  induction es as [|e es IH]; intros c tr t d Hbl Hin; cbn [blocks] in Hbl.
  - subst tr. inversion Hin.
  - destruct Hbl as (l1 & l2 & tr' & -> & _ & Hbl).
    rewrite !elem_of_cons in Hin.
    destruct Hin as [Hin|[Hin|[Hin|[Hin|Hin]]]]; try discriminate.
    + injection Hin as _ ->. reflexivity.
    + eapply IH; [exact Hbl|exact Hin].
Qed.

Lemma truthy_nonempty (t : string) : t <> "" -> Py.truthy t = true.
Proof. destruct t; [congruence|reflexivity]. Qed.

(** What a run does for the entry at place [k] of the entries to translate. *)
Lemma run_entry (env : environment) (filepath : string) (entries : list POEntry)
  (k r : nat) (e : POEntry) :
  polib_pofile env filepath = Return entries ->
  googletrans_Translator env = Return tt ->
  entries_to_translate entries !! k = Some r ->
  entries !! r = Some e ->
  po (snd (run env filepath)) !! r = Some (entry_after env k e)
  /\ Print (progress_line k (length (entries_to_translate entries)) e)
       ∈ trace (snd (run env filepath))
  /\ Print (result_line env k e) ∈ trace (snd (run env filepath)).
Proof.
  intros Hload Htr Hk Hr.
  destruct (run_full env filepath entries Hload Htr)
    as (p' & sk & Hrun & _ & _ & _ & Hsteps).
  rewrite Hrun. cbn [snd po trace].
  pose proof (list_lookup_total_correct _ _ _ Hr) as Htot.
  assert (Hes : map (fun r0 => entries !!! r0) (entries_to_translate entries) !! k = Some e).
  { rewrite list_lookup_fmap, Hk. cbn. rewrite Htot. reflexivity. }
  destruct (loop_events_lines env _ 0 (length (entries_to_translate entries)) 0 k e Hes)
    as [Hp Hres]. cbn [Nat.add] in Hp, Hres.
  split; [rewrite (Hsteps k r Hk), Htot; reflexivity|].
  split; rewrite !elem_of_app; right; right; right; left; assumption.
Qed.



(** X2: when the call for an entry to translate returns nothing, or a text
    that is empty, the entry is left as it was and the run prints the line
    that says the translation failed or came back empty. *)
Theorem empty_answer_skipped
  (env : environment) (filepath : string) (entries : list POEntry)
  (k r : nat) (e : POEntry) :
  polib_pofile env filepath = Return entries ->
  googletrans_Translator env = Return tt ->
  entries_to_translate entries !! k = Some r ->
  entries !! r = Some e ->
  (Translator_translate env k (msgid e) "ar" = Return None
   \/ exists tl, Translator_translate env k (msgid e) "ar" = Return (Some tl)
                 /\ text tl = "") ->
  po (snd (run env filepath)) !! r = Some e
  /\ Print ("  -> Translation failed or returned empty for: "
            +:+ Py.slice_to 50 (msgid e) +:+ "...") ∈ trace (snd (run env filepath)).
Proof.
  intros Hload Htr Hk Hr Hcall.
  destruct (run_entry env filepath entries k r e Hload Htr Hk Hr) as (Hpo & _ & Hline).
  unfold entry_after, answer, result_line, target_language in *.
  destruct Hcall as [Hcall|(tl & Hcall & Hempty)]; rewrite Hcall in *.
  - split; assumption.
  - rewrite Hempty in *. split; assumption.
Qed.

Lemma empty_answer_skipped_witness :
  (po (snd (run Sample2.env_silent "ar.po")) !! 1 = Some Sample.hello
   /\ Print "  -> Translation failed or returned empty for: Hello..."
        ∈ trace (snd (run Sample2.env_silent "ar.po")))
  /\ (po (snd (run Sample2.env_silent "ar.po")) !! 4 = Some Sample.world
      /\ Print "  -> Translation failed or returned empty for: World..."
           ∈ trace (snd (run Sample2.env_silent "ar.po"))).
Proof.
  split.
  - exact (empty_answer_skipped Sample2.env_silent "ar.po" Sample2.catalog 0 1 Sample.hello
             eq_refl eq_refl eq_refl eq_refl
             (or_intror (ex_intro _ (mkTranslated "") (conj eq_refl eq_refl)))).
  - exact (empty_answer_skipped Sample2.env_silent "ar.po" Sample2.catalog 1 4 Sample.world
             eq_refl eq_refl eq_refl eq_refl (or_introl eq_refl)).
Defined.



Lemma succeeds_text (env : environment) (k : nat) (e : POEntry) (tl : Translated) :
  Translator_translate env k (msgid e) "ar" = Return (Some tl) ->
  text tl <> "" ->
  succeeds env k e = true.
Proof.
  intros Hcall Hne. unfold succeeds, answer, target_language.
  rewrite Hcall, (truthy_nonempty _ Hne). reflexivity.
Qed.

(** The trace of a run in which some call gave a text, around its save. *)
Lemma run_save_split (env : environment) (filepath : string) (entries : list POEntry)
  (k r : nat) (e : POEntry) (tl : Translated) :
  polib_pofile env filepath = Return entries ->
  googletrans_Translator env = Return tt ->
  entries_to_translate entries !! k = Some r ->
  entries !! r = Some e ->
  Translator_translate env k (msgid e) "ar" = Return (Some tl) ->
  text tl <> "" ->
  exists before after,
    trace (snd (run env filepath))
    = before ++ Print ("Saving translated file: " +:+ filepath)
             :: CallSave filepath (po (snd (run env filepath))) :: after
    /\ (forall fpath l, CallSave fpath l ∉ before)
    /\ after
       = match POFile_save env filepath (po (snd (run env filepath))) with
         | Return _ =>
             Print ("Successfully translated "
                    +:+ Py.str_of_nat (translated_count (snd (run env filepath)))
                    +:+ " new entries.")
               :: skipped_line (skipped_count (snd (run env filepath)))
         | Raise ex => [Print (handler_line filepath ex)]
         end.
Proof.
  intros Hload Htr Hk Hr Hcall Hne.
  destruct (run_full env filepath entries Hload Htr) as (p' & sk & Hrun & _).
  rewrite Hrun. cbn [snd po trace translated_count skipped_count].
  pose proof (list_lookup_total_correct _ _ _ Hr) as Htot.
  assert (Hpos : 0 < successes env 0
                       (map (fun r0 => entries !!! r0) (entries_to_translate entries))).
  { apply (successes_lookup env _ 0 k e).
    - rewrite list_lookup_fmap, Hk. cbn. rewrite Htot. reflexivity.
    - apply (succeeds_text env k e tl Hcall Hne). }
  unfold closing_events at 1. apply Nat.ltb_lt in Hpos. rewrite Hpos.
  eexists (opening_events filepath entries
           ++ select_events (map (fun r0 => entries !!! r0) (potentially_translatable entries))
           ++ [Print (attempt_line (length (entries_to_translate entries)))]
           ++ loop_events env 0 (length (entries_to_translate entries)) 0
                (map (fun r0 => entries !!! r0) (entries_to_translate entries))), _.
  split; [rewrite <- !app_assoc; reflexivity|]. split; [|reflexivity].
  intros fpath l Hin. rewrite !elem_of_app in Hin.
  destruct Hin as [Hin|[Hin|[Hin|Hin]]].
  - unfold opening_events in Hin. rewrite !elem_of_cons in Hin.
    destruct Hin as [Hin|[Hin|[Hin|Hin]]]; try discriminate. inversion Hin.
  - pose proof (select_events_prints
                  (map (fun r0 => entries !!! r0) (potentially_translatable entries))) as Hpr.
    rewrite Forall_forall in Hpr. destruct (Hpr _ Hin).
  - apply list_elem_of_singleton in Hin. discriminate.
  - pose proof (loop_events_no_save env
                  (map (fun r0 => entries !!! r0) (entries_to_translate entries))
                  0 (length (entries_to_translate entries)) 0) as Hns.
    rewrite Forall_forall in Hns. exact (Hns _ Hin fpath l eq_refl).
Qed.

(** X4: when some call gave a text and the write succeeds, the run saves
    once: the trace is what came before, in which there is no save, then the
    save of the catalog as the run leaves it, to the path it was read from,
    then nothing but printed lines, the first of which gives the number of
    translated entries. *)
Theorem saved_once_after_calls
  (env : environment) (filepath : string) (entries : list POEntry)
  (k r : nat) (e : POEntry) (tl : Translated) :
  polib_pofile env filepath = Return entries ->
  googletrans_Translator env = Return tt ->
  entries_to_translate entries !! k = Some r ->
  entries !! r = Some e ->
  Translator_translate env k (msgid e) "ar" = Return (Some tl) ->
  text tl <> "" ->
  POFile_save env filepath (po (snd (run env filepath))) = Return tt ->
  exists before after,
    trace (snd (run env filepath))
    = before ++ CallSave filepath (po (snd (run env filepath)))
             :: Print ("Successfully translated "
                       +:+ Py.str_of_nat (translated_count (snd (run env filepath)))
                       +:+ " new entries.") :: after
    /\ (forall fpath l, CallSave fpath l ∉ before)
    /\ calls_of before = map msgid (List.filter to_translate entries)
    /\ Forall is_print after.
Proof.
  intros Hload Htr Hk Hr Hcall Hne Hsave.
  destruct (run_save_split env filepath entries k r e tl Hload Htr Hk Hr Hcall Hne)
    as (before & after & Htrace & Hbefore & Hafter).
  rewrite Hsave in Hafter. subst after.
  exists (before ++ [Print ("Saving translated file: " +:+ filepath)]),
         (skipped_line (skipped_count (snd (run env filepath)))).
  split; [rewrite Htrace, <- app_assoc; reflexivity|].
  assert (Hskip : Forall is_print (skipped_line (skipped_count (snd (run env filepath))))).
  { unfold skipped_line. destruct (0 <? _)%nat; repeat constructor. }
  split; [|split; [|exact Hskip]].
  - intros fpath l Hin. apply elem_of_app in Hin as [Hin|Hin].
    + exact (Hbefore fpath l Hin).
    + apply list_elem_of_singleton in Hin. discriminate.
  - pose proof (run_calls env filepath entries Hload Htr) as Hcalls.
    rewrite Htrace, calls_of_app in Hcalls. cbn [calls_of] in Hcalls.
    rewrite (calls_of_no_call _ (is_print_no_call _ Hskip)), app_nil_r in Hcalls.
    rewrite calls_of_app. cbn [calls_of]. rewrite app_nil_r. exact Hcalls.
Qed.

Lemma saved_once_after_calls_witness :
  exists before after,
    trace (snd (run Sample.env "ar.po"))
    = before ++ CallSave "ar.po" (po (snd (run Sample.env "ar.po")))
             :: Print ("Successfully translated "
                       +:+ Py.str_of_nat (translated_count (snd (run Sample.env "ar.po")))
                       +:+ " new entries.") :: after
    /\ (forall fpath l, CallSave fpath l ∉ before)
    /\ calls_of before = map msgid (List.filter to_translate Sample.catalog)
    /\ Forall is_print after.
Proof.
  apply (saved_once_after_calls Sample.env "ar.po" Sample.catalog 1 5 Sample.world
           (mkTranslated "[ar] World")); try reflexivity. discriminate.
Defined.

(** X5: when some call gave a text and the write raises, the function still
    returns, the entry keeps its new msgstr in memory, and the run ends with
    the saving line, the save, and the line of the handler: neither the line
    of success nor the summary of skipped entries is printed. *)
Theorem save_failure_reported
  (env : environment) (filepath : string) (entries : list POEntry)
  (k r : nat) (e : POEntry) (tl : Translated) (ex : exn) :
  polib_pofile env filepath = Return entries ->
  googletrans_Translator env = Return tt ->
  entries_to_translate entries !! k = Some r ->
  entries !! r = Some e ->
  Translator_translate env k (msgid e) "ar" = Return (Some tl) ->
  text tl <> "" ->
  POFile_save env filepath (po (snd (run env filepath))) = Raise ex ->
  fst (run env filepath) = Return tt
  /\ po (snd (run env filepath)) !! r = Some (set_msgstr e (text tl))
  /\ exists before,
       trace (snd (run env filepath))
       = before ++ [ Print ("Saving translated file: " +:+ filepath);
                     CallSave filepath (po (snd (run env filepath)));
                     Print (match exc_type ex with
                            | FileNotFoundError => "Error: File not found at " +:+ filepath
                            | OtherException =>
                                "An unexpected error occurred: " +:+ exc_str ex
                            end) ].
Proof.
  intros Hload Htr Hk Hr Hcall Hne Hsave.
  split; [apply run_returns|].
  destruct (run_entry env filepath entries k r e Hload Htr Hk Hr) as (Hpo & _).
  split.
  - rewrite Hpo. unfold entry_after, answer, target_language.
    rewrite Hcall, (truthy_nonempty _ Hne). reflexivity.
  - destruct (run_save_split env filepath entries k r e tl Hload Htr Hk Hr Hcall Hne)
      as (before & after & Htrace & _ & Hafter).
    rewrite Hsave in Hafter. subst after. exists before. exact Htrace.
Qed.

Lemma save_failure_reported_witness :
  fst (run Sample2.env_full_disk "ar.po") = Return tt
  /\ po (snd (run Sample2.env_full_disk "ar.po")) !! 1
     = Some (set_msgstr Sample.hello "[ar] Hello")
  /\ exists before,
       trace (snd (run Sample2.env_full_disk "ar.po"))
       = before ++ [ Print "Saving translated file: ar.po";
                     CallSave "ar.po" (po (snd (run Sample2.env_full_disk "ar.po")));
                     Print "An unexpected error occurred: No space left on device" ].
Proof.
  exact (save_failure_reported Sample2.env_full_disk "ar.po" Sample2.catalog 0 1
           Sample.hello (mkTranslated "[ar] Hello")
           (mkExn OtherException "No space left on device")
           eq_refl eq_refl eq_refl eq_refl eq_refl ltac:(discriminate) eq_refl).
Defined.

(** X6: a run only ever writes msgstr, and only over an empty one: the
    catalog keeps its length, and every entry keeps its msgid, flags,
    occurrences and line number; its msgstr is what it was, or it was empty
    and no longer is.  In particular no flag is ever removed. *)
Theorem only_msgstr_changes
  (env : environment) (filepath : string) (entries : list POEntry) :
  polib_pofile env filepath = Return entries ->
  length (po (snd (run env filepath))) = length entries
  /\ forall i e0,
       entries !! i = Some e0 ->
       exists e1,
         po (snd (run env filepath)) !! i = Some e1
         /\ msgid e1 = msgid e0 /\ flags e1 = flags e0
         /\ occurrences e1 = occurrences e0 /\ linenum e1 = linenum e0
         /\ (msgstr e1 = msgstr e0 \/ (msgstr e0 = "" /\ msgstr e1 <> "")).
Proof.
  intros Hload.
  destruct (googletrans_Translator env) as [[]|ex] eqn:Htr.
  - destruct (run_full env filepath entries Hload Htr)
      as (p' & sk & Hrun & _ & Hlen & Hframe & Hsteps).
    rewrite Hrun. cbn [snd po]. split; [exact Hlen|].
    intros i e0 Hi. pose proof (list_lookup_total_correct _ _ _ Hi) as Htot.
    destruct (decide (i ∈ entries_to_translate entries)) as [Hin|Hout].
    + pose proof Hin as Hsel. apply entries_to_translate_spec in Hsel as [_ Hsel].
      rewrite Htot in Hsel. apply to_translate_inv in Hsel as (Hempty & _).
      apply list_elem_of_lookup_1 in Hin as [k Hk].
      exists (entry_after env k e0). rewrite (Hsteps k i Hk), Htot.
      split; [reflexivity|]. unfold entry_after.
      destruct (answer env k e0) as [t|] eqn:Hans; cbn; [|tauto].
      apply answer_Some in Hans as [Hne _]. tauto.
    + exists e0. rewrite (Hframe i Hout). tauto.
  - rewrite (run_Translator_raises env filepath entries ex Hload Htr). cbn [snd po].
    split; [reflexivity|]. intros i e0 Hi. exists e0. tauto.
Qed.

Lemma only_msgstr_changes_witness :
  length (po (snd (run Sample.env "ar.po"))) = length Sample.catalog
  /\ exists e1,
       po (snd (run Sample.env "ar.po")) !! 5 = Some e1
       /\ msgid e1 = msgid Sample.world /\ flags e1 = flags Sample.world
       /\ occurrences e1 = occurrences Sample.world /\ linenum e1 = linenum Sample.world
       /\ (msgstr e1 = msgstr Sample.world
           \/ (msgstr Sample.world = "" /\ msgstr e1 <> "")).
Proof.
  pose proof (only_msgstr_changes Sample.env "ar.po" Sample.catalog eq_refl) as [Hlen Hall].
  split; [exact Hlen|]. exact (Hall 5 Sample.world eq_refl).
Defined.

(** X7: the count of translated entries at the end of a run is the number
    of entries of the catalog whose msgstr the run changed: these entries
    make a list without repetition whose length is the count. *)
Theorem count_is_changed_entries
  (env : environment) (filepath : string) (entries : list POEntry) :
  polib_pofile env filepath = Return entries ->
  exists changed : list nat,
    NoDup changed
    /\ length changed = translated_count (snd (run env filepath))
    /\ forall i,
         i ∈ changed
         <-> exists e0 e1,
               entries !! i = Some e0
               /\ po (snd (run env filepath)) !! i = Some e1
               /\ msgstr e1 <> msgstr e0.
Proof.
  intros Hload.
  destruct (googletrans_Translator env) as [[]|ex] eqn:Htr.
  - destruct (run_full env filepath entries Hload Htr)
      as (p' & sk & Hrun & _ & Hlen & Hframe & Hsteps).
    rewrite Hrun. cbn [snd po translated_count].
    exists (changed_refs env 0 (entries_to_translate entries) entries).
    split; [apply changed_refs_NoDup, entries_to_translate_NoDup|].
    split; [apply changed_refs_length|].
    intros i. rewrite changed_refs_elem. cbn [Nat.add]. split.
    + intros (k & Hk & Hs).
      assert (Hin : i ∈ entries_to_translate entries)
        by (eapply list_elem_of_lookup_2; exact Hk).
      apply entries_to_translate_spec in Hin as [Hlt Hsel].
      apply to_translate_inv in Hsel as (Hempty & _).
      unfold succeeds in Hs. destruct (answer env k (entries !!! i)) as [t|] eqn:Hans;
        [|discriminate].
      exists (entries !!! i), (set_msgstr (entries !!! i) t).
      split; [apply list_lookup_lookup_total_lt; exact Hlt|].
      split; [rewrite (Hsteps k i Hk); unfold entry_after; rewrite Hans; reflexivity|].
      cbn [set_msgstr msgstr]. rewrite Hempty.
      apply answer_Some in Hans as [Hne _]. exact Hne.
    + intros (e0 & e1 & Hi & Hfin & Hchg).
      pose proof (list_lookup_total_correct _ _ _ Hi) as Htot.
      destruct (decide (i ∈ entries_to_translate entries)) as [Hin|Hout].
      * apply list_elem_of_lookup_1 in Hin as [k Hk]. exists k. split; [exact Hk|].
        rewrite (Hsteps k i Hk), Htot in Hfin. injection Hfin as <-.
        unfold succeeds, entry_after in *. rewrite Htot.
        destruct (answer env k e0); [reflexivity|congruence].
      * rewrite (Hframe i Hout), Hi in Hfin. congruence.
  - rewrite (run_Translator_raises env filepath entries ex Hload Htr).
    cbn [snd po translated_count]. exists []. split; [constructor|].
    split; [reflexivity|]. intros i. split; [intros Hin; inversion Hin|].
    intros (e0 & e1 & Hi & Hfin & Hchg). congruence.
Qed.

Lemma count_is_changed_entries_witness :
  exists changed : list nat,
    NoDup changed
    /\ length changed = translated_count (snd (run Sample2.env_up "ar.po"))
    /\ forall i,
         i ∈ changed
         <-> exists e0 e1,
               Sample2.catalog !! i = Some e0
               /\ po (snd (run Sample2.env_up "ar.po")) !! i = Some e1
               /\ msgstr e1 <> msgstr e0.
Proof.
  exact (count_is_changed_entries Sample2.env_up "ar.po" Sample2.catalog eq_refl).
Defined.

Lemma filter_and_split {A} (P Q : A -> bool) (l : list A) :
  length (List.filter (fun x => P x && negb (Q x)) l)
  + length (List.filter (fun x => P x && Q x) l)
  = length (List.filter P l).
Proof.
  induction l as [|x l IH]; [reflexivity|].
  cbn [List.filter]. destruct (P x), (Q x); cbn [andb negb length]; lia.
Qed.

(** X8: the count of skipped entries at the end of a run is the number of
    entries with an empty msgstr and a msgid that the first loop drops,
    because of a report occurrence or a fuzzy flag.  The entries that line 29
    leaves out, those with a msgstr or without a msgid, are not in the
    count. *)
Theorem skipped_count_is_dropped_entries
  (env : environment) (filepath : string) (entries : list POEntry) :
  polib_pofile env filepath = Return entries ->
  googletrans_Translator env = Return tt ->
  skipped_count (snd (run env filepath))
  = length (List.filter (fun e => untranslated e && negb (selected e)) entries).
Proof.
  intros Hload Htr.
  destruct (run_full env filepath entries Hload Htr) as (p' & sk & Hrun & Hsk & _).
  rewrite Hrun. cbn [snd skipped_count].
  pose proof (filter_and_split untranslated selected entries) as Hsplit.
  pose proof (entries_to_translate_entries entries) as Hsel.
  apply (f_equal (@length POEntry)) in Hsel. rewrite length_map in Hsel.
  pose proof (filter_refs untranslated entries []) as Hpot.
  apply (f_equal (@length POEntry)) in Hpot. rewrite length_map in Hpot.
  cbn [app length] in Hpot. fold (potentially_translatable entries) in Hpot.
  unfold to_translate in Hsel.
  lia.
Qed.

Lemma skipped_count_is_dropped_entries_witness :
  skipped_count (snd (run Sample.env "ar.po")) = 2
  /\ length (List.filter (fun e => negb (untranslated e)) Sample.catalog) = 2.
Proof.
  split; [|reflexivity].
  exact (skipped_count_is_dropped_entries Sample.env "ar.po" Sample.catalog eq_refl eq_refl).
Defined.

(** X9: in the catalog a run leaves, the entries that a next run would
    translate are those this run had to translate and left as they were;
    an entry that got its msgstr is never taken again. *)
Theorem rerun_selection
  (env : environment) (filepath : string) (entries : list POEntry) (i : nat) :
  polib_pofile env filepath = Return entries ->
  (i ∈ entries_to_translate (po (snd (run env filepath)))
   <-> i ∈ entries_to_translate entries
       /\ po (snd (run env filepath)) !! i = entries !! i).
Proof.
  intros Hload.
  destruct (googletrans_Translator env) as [[]|ex] eqn:Htr.
  - destruct (run_full env filepath entries Hload Htr)
      as (p' & sk & Hrun & _ & Hlen & Hframe & Hsteps).
    rewrite Hrun. cbn [snd po]. rewrite !entries_to_translate_spec, Hlen. split.
    + intros [Hlt Hsel].
      pose proof (list_lookup_lookup_total_lt entries i Hlt) as Hi.
      assert (Hlt' : i < length p') by lia.
      pose proof (list_lookup_lookup_total_lt p' i Hlt') as Hi'.
      destruct (decide (i ∈ entries_to_translate entries)) as [Hin|Hout].
      * pose proof Hin as Hin'. apply entries_to_translate_spec in Hin' as [_ Hsel0].
        apply list_elem_of_lookup_1 in Hin as [k Hk].
        rewrite (Hsteps k i Hk) in Hi'. injection Hi' as Hi'.
        unfold entry_after in Hi'.
        destruct (answer env k (entries !!! i)) as [t|] eqn:Hans.
        -- rewrite <- Hi' in Hsel. apply to_translate_inv in Hsel as [Hempty _].
           cbn [set_msgstr msgstr] in Hempty.
           apply answer_Some in Hans as [Hne _]. contradiction.
        -- split; [split; [exact Hlt|exact Hsel0]|].
           rewrite (Hsteps k i Hk). unfold entry_after. rewrite Hans.
           symmetry. exact Hi.
      * pose proof (Hframe i Hout) as Hsame. split; [|exact Hsame].
        split; [exact Hlt|]. rewrite Hi, Hi' in Hsame. injection Hsame as <-. exact Hsel.
    + intros [[Hlt Hsel] Hsame]. split; [exact Hlt|].
      assert (Hlt' : i < length p') by lia.
      rewrite (list_lookup_lookup_total_lt entries i Hlt),
        (list_lookup_lookup_total_lt p' i Hlt') in Hsame.
      injection Hsame as ->. exact Hsel.
  - rewrite (run_Translator_raises env filepath entries ex Hload Htr). cbn [snd po]. tauto.
Qed.

Lemma rerun_selection_witness :
  entries_to_translate (po (snd (run Sample.env "ar.po"))) = [1]
  /\ (1 ∈ entries_to_translate Sample.catalog
      /\ po (snd (run Sample.env "ar.po")) !! 1 = Sample.catalog !! 1).
Proof.
  split; [reflexivity|].
  apply (rerun_selection Sample.env "ar.po" Sample.catalog 1 eq_refl).
  apply (list_elem_of_lookup_2 _ 0). reflexivity.
Defined.

(** X10: after a run in which every call gave a text, a second run on the
    catalog it leaves calls the service for nothing and saves nothing, and
    leaves the catalog as it is, whatever the libraries answer then. *)
Theorem rerun_after_success
  (env env' : environment) (filepath filepath' : string) (entries : list POEntry) :
  polib_pofile env filepath = Return entries ->
  googletrans_Translator env = Return tt ->
  (forall k r, entries_to_translate entries !! k = Some r ->
               exists tl, Translator_translate env k (msgid (entries !!! r)) "ar"
                          = Return (Some tl) /\ text tl <> "") ->
  polib_pofile env' filepath' = Return (po (snd (run env filepath))) ->
  po (snd (run env' filepath')) = po (snd (run env filepath))
  /\ calls_of (trace (snd (run env' filepath'))) = []
  /\ (forall fpath l, CallSave fpath l ∉ trace (snd (run env' filepath'))).
Proof.
  intros Hload Htr Hall Hload'.
  assert (Hnone : entries_to_translate (po (snd (run env filepath))) = []).
  { destruct (entries_to_translate (po (snd (run env filepath)))) as [|i l] eqn:Hl;
      [reflexivity|exfalso].
    assert (Hin : i ∈ entries_to_translate (po (snd (run env filepath))))
      by (rewrite Hl; apply elem_of_cons; left; reflexivity).
    apply (rerun_selection env filepath entries i Hload) in Hin as [Hin Hsame].
    pose proof Hin as Hsel. apply entries_to_translate_spec in Hsel as [Hlt Hsel].
    apply to_translate_inv in Hsel as [Hempty _].
    apply list_elem_of_lookup_1 in Hin as [k Hk].
    destruct (Hall k i Hk) as (tl & Hcall & Hne).
    destruct (run_entry env filepath entries k i (entries !!! i) Hload Htr Hk
                (list_lookup_lookup_total_lt entries i Hlt)) as (Hpo & _).
    rewrite Hsame, (list_lookup_lookup_total_lt entries i Hlt) in Hpo.
    injection Hpo as Hpo. unfold entry_after, answer, target_language in Hpo.
    rewrite Hcall, (truthy_nonempty _ Hne) in Hpo.
    rewrite Hpo in Hempty. cbn [set_msgstr msgstr] in Hempty. contradiction. }
  set (p1 := po (snd (run env filepath))) in *.
  destruct (googletrans_Translator env') as [[]|ex] eqn:Htr'.
  - destruct (run_full env' filepath' p1 Hload' Htr')
      as (p' & sk & Hrun & _ & Hlen & Hframe & _).
    rewrite Hnone in Hrun, Hframe. cbn [map successes loop_events length] in Hrun.
    rewrite Hrun. cbn [snd po trace]. split; [|split].
    + apply list_eq. intros j. apply Hframe. apply not_elem_of_nil.
    + rewrite !calls_of_app. cbn [calls_of closing_events Nat.ltb Nat.leb].
      rewrite (calls_of_no_call _ (is_print_no_call _ (select_events_prints _))).
      unfold skipped_line. destruct (0 <? sk)%nat; reflexivity.
    + intros fpath l Hin. rewrite !elem_of_app in Hin.
      destruct Hin as [Hin|[Hin|[Hin|[Hin|Hin]]]].
      * unfold opening_events in Hin. rewrite !elem_of_cons in Hin.
        destruct Hin as [Hin|[Hin|[Hin|Hin]]]; try discriminate. inversion Hin.
      * pose proof (select_events_prints
                      (map (fun r0 => p1 !!! r0) (potentially_translatable p1))) as Hpr.
        rewrite Forall_forall in Hpr. destruct (Hpr _ Hin).
      * apply list_elem_of_singleton in Hin. discriminate.
      * inversion Hin.
      * cbn [closing_events Nat.ltb Nat.leb] in Hin. unfold skipped_line in Hin.
        apply elem_of_cons in Hin as [Hin|Hin]; [discriminate|].
        destruct (0 <? sk)%nat; [|inversion Hin].
        apply list_elem_of_singleton in Hin. discriminate.
  - rewrite (run_Translator_raises env' filepath' p1 ex Hload' Htr'). cbn [snd po trace].
    split; [reflexivity|]. split; [reflexivity|].
    intros fpath l Hin. apply list_elem_of_singleton in Hin. discriminate.
Qed.

Lemma rerun_after_success_witness :
  po (snd (run Sample2.env_again "ar.po")) = po (snd (run Sample2.env_up "ar.po"))
  /\ calls_of (trace (snd (run Sample2.env_again "ar.po"))) = []
  /\ (forall fpath l, CallSave fpath l ∉ trace (snd (run Sample2.env_again "ar.po"))).
Proof.
  apply (rerun_after_success Sample2.env_up Sample2.env_again "ar.po" "ar.po"
           Sample2.catalog eq_refl eq_refl); [|reflexivity].
  intros k r Hk. eexists. split; [reflexivity|].
  assert (Hin : r ∈ entries_to_translate Sample2.catalog)
    by (eapply list_elem_of_lookup_2; exact Hk).
  apply entries_to_translate_spec in Hin as [_ Hsel].
  apply to_translate_inv in Hsel as (_ & Hid & _).
  cbn [text]. discriminate.
Defined.

Lemma report_occurrence_first (pre post : list (string * string)) (f l : string) :
  Forall (fun oc => report_in (fst oc) = false) pre ->
  report_in f = true ->
  report_occurrence (pre ++ (f, l) :: post) = Some f.
Proof.
  intros Hpre Hf. induction Hpre as [|[f' l'] pre Hf' _ IH]; cbn [app report_occurrence].
  - fold (report_in f). rewrite Hf. reflexivity.
  - fold (report_in f'). cbn [fst] in Hf'. rewrite Hf'. exact IH.
Qed.

(** X11: an entry with an empty msgstr and a msgid, one of whose
    occurrences is in a file with 'report' in its name, is skipped with a line
    that gives its line number and the first such file of its occurrences,
    whatever its flags. *)
Theorem report_skip_names_first_file
  (env : environment) (filepath : string) (entries : list POEntry)
  (i : nat) (e : POEntry) (pre post : list (string * string)) (f l : string) :
  polib_pofile env filepath = Return entries ->
  googletrans_Translator env = Return tt ->
  entries !! i = Some e ->
  msgstr e = "" ->
  msgid e <> "" ->
  occurrences e = pre ++ (f, l) :: post ->
  Forall (fun oc => report_in (fst oc) = false) pre ->
  report_in f = true ->
  Print ("Skipping entry (line " +:+ Py.str_of_nat (linenum e)
         +:+ ") due to 'report' in occurrences: " +:+ f)
    ∈ trace (snd (run env filepath)).
Proof.
  intros Hload Htr Hi Hstr Hid Hocc Hpre Hf.
  destruct (run_full env filepath entries Hload Htr) as (p' & sk & Hrun & _).
  rewrite Hrun. cbn [snd trace].
  rewrite !elem_of_app. right. left.
  apply (select_events_report _ e f).
  - apply list_elem_of_fmap. exists i.
    split; [symmetry; apply list_lookup_total_correct; exact Hi|].
    apply potentially_translatable_spec. split; [eapply lookup_lt_Some; exact Hi|].
    rewrite (list_lookup_total_correct _ _ _ Hi). unfold untranslated.
    rewrite Hstr, (truthy_nonempty _ Hid). reflexivity.
  - rewrite Hocc. apply report_occurrence_first; assumption.
Qed.

Lemma report_skip_names_first_file_witness :
  Print "Skipping entry (line 25) due to 'report' in occurrences: addons/account/report/REPORT_invoice.xml"
    ∈ trace (snd (run Sample2.env_up "ar.po")).
Proof.
  apply (report_skip_names_first_file Sample2.env_up "ar.po" Sample2.catalog 2
           Sample2.summary
           [("addons/account/views/account.xml", "7")]
           [("addons/account/report/report_tax.xml", "9")]
           "addons/account/report/REPORT_invoice.xml" "3");
    try reflexivity; [discriminate|repeat constructor].
Defined.

(** X12: whatever the libraries answer, every call of the service asks for
    Arabic and carries a text that is not empty. *)
Theorem calls_well_formed
  (env : environment) (filepath : string) (t d : string) :
  CallTranslate t d ∈ trace (snd (run env filepath)) ->
  d = "ar" /\ t <> "".
Proof.
  intros Hin. split.
  - destruct (polib_pofile env filepath) as [entries|ex] eqn:Hload.
    + destruct (googletrans_Translator env) as [[]|ex] eqn:Htr.
      * destruct (run_loaded env filepath entries Hload Htr)
          as (p' & sk & pre & tr & post & Hrun & _ & _ & _ & Hpre & Hbl & Hpost).
        rewrite Hrun in Hin. cbn [snd trace] in Hin.
        rewrite !elem_of_app in Hin. destruct Hin as [Hin|[Hin|Hin]].
        -- rewrite Forall_forall in Hpre. destruct (Hpre _ Hin).
        -- exact (blocks_dest env _ _ _ _ _ Hbl Hin).
        -- rewrite Forall_forall in Hpost. destruct (Hpost _ Hin) as [[]|[Heq _]].
           discriminate.
      * rewrite (run_Translator_raises env filepath entries ex Hload Htr) in Hin.
        cbn [snd trace] in Hin. apply list_elem_of_singleton in Hin. discriminate.
    + rewrite (run_pofile_raises env filepath ex Hload) in Hin.
      cbn [snd trace] in Hin. apply list_elem_of_singleton in Hin. discriminate.
  - apply run_call_entry in Hin as (entries & e & _ & _ & Hsel & <-).
    apply to_translate_inv in Hsel as (_ & Hid & _). exact Hid.
Qed.

Lemma calls_well_formed_witness :
  CallTranslate "World" "ar" ∈ trace (snd (run Sample.env "ar.po"))
  /\ "ar" = "ar" /\ "World" <> "".
Proof.
  assert (Hin : CallTranslate "World" "ar" ∈ trace (snd (run Sample.env "ar.po")))
    by (apply (list_elem_of_lookup_2 _ 12); reflexivity).
  split; [exact Hin|].
  exact (calls_well_formed Sample.env "ar.po" "World" "ar" Hin).
Defined.

Lemma translate_po_file_returns (env : environment) (filepath : string) (s : state) :
  fst (translate_po_file env filepath s) = Return tt.
Proof.
  unfold translate_po_file, try_except.
  destruct (process env filepath s) as [[[]|e] s']; [reflexivity|].
  destruct (exc_type e); reflexivity.
Qed.

(** X13: the program ends in one of two ways, whatever its arguments and
    whatever the libraries answer: argparse ends it, before the script
    itself prints or reads anything, or translate_po_file ran and returned;
    no exception of the libraries reaches the top level. *)
Theorem main_never_raises
  (env : environment) (parse_option_strings : list string -> parsed)
  (argv : list string) :
  (exists status, main env parse_option_strings argv = (Exited status, initial))
  \/ fst (main env parse_option_strings argv) = Finished (Return tt).
Proof.
  unfold main. destruct (parse_args parse_option_strings argv) as [[filepath|]|status].
  - right. pose proof (translate_po_file_returns env filepath initial) as Hret.
    destruct (translate_po_file env filepath initial) as [o s]. cbn in *. rewrite Hret.
    reflexivity.
  - right. unfold bind at 1, print at 1, emit at 1. cbv beta iota.
    match goal with |- context [translate_po_file env ?fp ?s0] =>
      pose proof (translate_po_file_returns env fp s0) as Hret;
      destruct (translate_po_file env fp s0) as [o s] end.
    cbn in *. rewrite Hret. reflexivity.
  - left. exists status. reflexivity.
Qed.

Lemma sleeps_of_app (a b : list event) : sleeps_of (a ++ b) = sleeps_of a ++ sleeps_of b.
Proof.
  induction a as [|[] a IH]; cbn [app sleeps_of]; rewrite ?IH; reflexivity.
Qed.

Lemma sleeps_of_no_sleep (l : list event) : Forall no_sleep l -> sleeps_of l = [].
Proof.
  induction 1 as [|[] l Hev _ IH]; cbn [sleeps_of]; try assumption; try reflexivity.
  destruct Hev.
Qed.

Lemma is_print_no_sleep (l : list event) : Forall is_print l -> Forall no_sleep l.
Proof. intros Hall. eapply Forall_impl; [exact Hall|]. intros []; cbn; tauto. Qed.

Lemma loop_events_sleeps (env : environment) (es : list POEntry) :
  forall i n c, sleeps_of (loop_events env i n c es) = repeat (1 # 2)%Q (length es).
Proof.
  induction es as [|e es IH]; intros i n c; [reflexivity|].
  cbn [loop_events sleeps_of length repeat]. rewrite IH. reflexivity.
Qed.

Lemma closing_events_no_sleep (env : environment) (filepath : string)
  (p : list POEntry) (count skipped : nat) :
  Forall no_sleep (closing_events env filepath p count skipped).
Proof.
  unfold closing_events, skipped_line.
  destruct (0 <? count)%nat; [destruct (POFile_save env filepath p)|];
    try destruct (0 <? skipped)%nat; repeat constructor.
Qed.

(** X14: whatever the libraries answer, a run sleeps once for each call of
    the service and not otherwise, half a second each time: the time a run
    spends asleep is half a second for each entry it sends. *)
Theorem one_sleep_per_call (env : environment) (filepath : string) :
  sleeps_of (trace (snd (run env filepath)))
  = repeat (1 # 2)%Q (length (calls_of (trace (snd (run env filepath))))).
Proof.
  destruct (polib_pofile env filepath) as [entries|ex] eqn:Hload.
  - destruct (googletrans_Translator env) as [[]|ex] eqn:Htr.
    + rewrite (run_calls env filepath entries Hload Htr).
      rewrite <- entries_to_translate_entries, !length_map.
      destruct (run_full env filepath entries Hload Htr) as (p' & sk & Hrun & _).
      rewrite Hrun. cbn [snd trace]. rewrite !sleeps_of_app.
      rewrite (sleeps_of_no_sleep (opening_events _ _)) by (repeat constructor).
      rewrite (sleeps_of_no_sleep (select_events _))
        by (apply is_print_no_sleep, select_events_prints).
      rewrite (sleeps_of_no_sleep (closing_events _ _ _ _ _))
        by (apply closing_events_no_sleep).
      rewrite loop_events_sleeps, length_map. cbn [sleeps_of app].
      rewrite app_nil_r. reflexivity.
    + rewrite (run_Translator_raises env filepath entries ex Hload Htr). reflexivity.
  - rewrite (run_pofile_raises env filepath ex Hload). reflexivity.
Qed.
